(** * Incoming-call webhook: normalizer, history ring, single-flight
      initialisation and fan-out (backend/routes/incomingCalls.js)

    A shallow embedding of the Express router.  JavaScript values that can
    reach the handlers (parsed JSON bodies, parsed query strings) are an
    inductive type; exceptions are an explicit [result]; the module-level
    variables ([listeners], [lastCall], [sequence], [callHistory],
    [readyPromise], ...) are the fields of a record threaded through every
    handler.  Each handler body between two [await]s runs to completion in
    JavaScript, so a handler is modelled as a function of the state and of
    the replies that the store gives to its queries.  Requests are taken
    one at a time: the only writes to the ring and to the last-known call
    are the bootstrap block and the block after the INSERT, neither of
    which has an [await] inside. *)

From Stdlib Require Import ZArith List String Ascii Bool Lia DecimalString DecimalPos.
Import ListNotations.
Local Open Scope string_scope.
Local Open Scope Z_scope.

(** ** Exceptions *)

Inductive error : Type :=
| TypeError            (* thrown by the language: String() of an unconvertible object *)
| StoreError (code : Z) (* a rejected db.query promise *)
| WriteError           (* thrown by a write on a dead response stream *).

Inductive result (A : Type) : Type :=
| Ok (a : A)
| Throw (e : error).
Arguments Ok {A} a.
Arguments Throw {A} e.

Definition bind {A B} (r : result A) (k : A -> result B) : result B :=
  match r with
  | Ok a => k a
  | Throw e => Throw e
  end.

Notation "x <- r ;; k" := (bind r (fun x => k))
  (at level 61, r at next level, right associativity).

(** ** Strings

    A JavaScript string is modelled by a Rocq [string]: each character is
    one UTF-16 code unit in the range U+0000..U+00FF.  [trim],
    [toLowerCase] and the regular expression class [\D] are exact on that
    range. *)

Module Str.

Definition code (c : ascii) : N := N_of_ascii c.

(* WhiteSpace and LineTerminator code points below U+0100:
   TAB, LF, VT, FF, CR, SPACE, NO-BREAK SPACE. *)
Definition is_space (c : ascii) : bool :=
  let n := code c in
  ((9 <=? n) && (n <=? 13) || (n =? 32) || (n =? 160))%N.

Definition is_digit (c : ascii) : bool :=
  let n := code c in ((48 <=? n) && (n <=? 57))%N.

(* Unicode simple lower-casing below U+0100: A-Z, and the Latin-1
   capitals U+00C0..U+00DE except the multiplication sign U+00D7. *)
Definition lower_char (c : ascii) : ascii :=
  let n := code c in
  if ((65 <=? n) && (n <=? 90))%N then ascii_of_N (n + 32)
  else if ((192 <=? n) && (n <=? 222) && negb (n =? 215))%N
       then ascii_of_N (n + 32)
       else c.

Fixpoint map (f : ascii -> ascii) (s : string) : string :=
  match s with
  | EmptyString => EmptyString
  | String c r => String (f c) (map f r)
  end.

Fixpoint filter (p : ascii -> bool) (s : string) : string :=
  match s with
  | EmptyString => EmptyString
  | String c r => if p c then String c (filter p r) else filter p r
  end.

Fixpoint forallb (p : ascii -> bool) (s : string) : bool :=
  match s with
  | EmptyString => true
  | String c r => p c && forallb p r
  end.

Definition is_empty (s : string) : bool :=
  match s with EmptyString => true | _ => false end.

Fixpoint trimStart (s : string) : string :=
  match s with
  | EmptyString => EmptyString
  | String c r => if is_space c then trimStart r else s
  end.

Fixpoint trimEnd (s : string) : string :=
  match s with
  | EmptyString => EmptyString
  | String c r =>
      let r' := trimEnd r in
      if is_space c && is_empty r' then EmptyString else String c r'
  end.

(* String.prototype.trim *)
Definition trim (s : string) : string := trimEnd (trimStart s).

(* String.prototype.toLowerCase *)
Definition toLowerCase (s : string) : string := map lower_char s.

(* str.startsWith(c) for a one-character needle *)
Definition startsWith (s : string) (c : ascii) : bool :=
  match s with
  | String d _ => Ascii.eqb d c
  | EmptyString => false
  end.

(* str.slice(0, n) *)
Definition slice0 (n : nat) (s : string) : string := substring 0 n s.

Definition len (s : string) : Z := Z.of_nat (String.length s).

(* Number-to-string of an integer-valued number: plain decimal digits
   with a leading minus sign for negatives. *)
Definition of_Z (n : Z) : string := NilZero.string_of_int (Z.to_int n).

End Str.

(** ** JavaScript values

    The values a JSON body or a parsed query string can hold, plus
    [undefined] for an absent property.  Numbers are the integers.
    [js_String] prints an integer as its exact decimal numeral, which is
    what String() does for magnitudes below 2^53; from 2^53 on, String()
    prints the shortest digits that identify the nearest double, and an
    exponent from 10^21 on, which the model does not follow.  A statement
    that depends on the digits of a number is therefore made under
    [exact_numbers].  A fractional number prints with a dot and is
    truthy, which none of the functions below distinguishes from any
    other unrecognised text. *)

#[warnings="-register-all"]
Inductive jsval : Type :=
| JUndefined
| JNull
| JBool (b : bool)
| JNum (n : Z)
| JStr (s : string)
| JArr (elems : list jsval)
| JObj (props : list (string * jsval)).

(* Own-property lookup on a plain object; the first binding of a key is
   the property's value. *)
Fixpoint own (props : list (string * jsval)) (k : string) : option jsval :=
  match props with
  | [] => None
  | (k', v) :: rest => if String.eqb k' k then Some v else own rest k
  end.

(* ToBoolean *)
Definition truthy (v : jsval) : bool :=
  match v with
  | JUndefined | JNull => false
  | JBool b => b
  | JNum n => negb (n =? 0)
  | JStr s => negb (Str.is_empty s)
  | JArr _ | JObj _ => true
  end.

(* [v == null] *)
Definition nullish (v : jsval) : bool :=
  match v with
  | JUndefined | JNull => true
  | _ => false
  end.

(* [a ?? b] *)
Definition coalesce (a b : jsval) : jsval := if nullish a then b else a.

(* [a || b] *)
Definition js_or (a b : jsval) : jsval := if truthy a then a else b.

(* [typeof v === 'string' ? k(v) : d] *)
Definition if_string {A} (v : jsval) (k : string -> A) (d : A) : A :=
  match v with
  | JStr s => k s
  | _ => d
  end.

(* [String(v)].  Primitives convert directly.  An array joins the
   conversions of its elements with commas, [null] and [undefined]
   elements giving the empty string.  A plain object goes through
   OrdinaryToPrimitive: the inherited Object.prototype.toString answers
   "[object Object]", unless the object has an own property named
   toString.  Such a property of a parsed JSON object is never callable,
   the inherited valueOf returns the object itself, and the conversion
   throws a TypeError. *)
Fixpoint js_String (v : jsval) : result string :=
  match v with
  | JUndefined => Ok "undefined"
  | JNull => Ok "null"
  | JBool true => Ok "true"
  | JBool false => Ok "false"
  | JNum n => Ok (Str.of_Z n)
  | JStr s => Ok s
  | JArr elems =>
      (fix join (l : list jsval) : result string :=
         match l with
         | [] => Ok ""
         | x :: rest =>
             a <- (if nullish x then Ok "" else js_String x) ;;
             match rest with
             | [] => Ok a
             | _ => b <- join rest ;; Ok (a ++ "," ++ b)
             end
         end) elems
  | JObj props =>
      match own props "toString" with
      | Some _ => Throw TypeError
      | None => Ok "[object Object]"
      end
  end.

(* The numbers that [js_String] prints as String() does: every number
   the text of the value depends on is an integer of magnitude below
   2^53.  The text of an object does not depend on what it holds. *)
Fixpoint exact_numbers (v : jsval) : bool :=
  match v with
  | JNum n => Z.abs n <? 2 ^ 53
  | JArr elems =>
      (fix all (l : list jsval) : bool :=
         match l with
         | [] => true
         | x :: rest => exact_numbers x && all rest
         end) elems
  | _ => true
  end.

(** ** Normalizer *)

Definition STATUS_LABELS : list string :=
  ["ringing"; "answered"; "missed"; "rejected"].

(* STATUS_LABELS.has(s) *)
Definition STATUS_LABELS_has (s : string) : bool :=
  existsb (String.eqb s) STATUS_LABELS.

Definition normalizeStatus (rawStatus : jsval) : result string :=
  if negb (truthy rawStatus) then Ok "ringing"
  else
    s <- js_String rawStatus ;;
    let status := Str.toLowerCase (Str.trim s) in
    if STATUS_LABELS_has status then Ok status
    else if String.eqb status "no_answer" || String.eqb status "noanswer"
         then Ok "missed"
         else Ok "ringing".

Record phone_parts : Type := mkPhone { display : string; digits : string }.

Definition no_phone : phone_parts := mkPhone "" "".

Definition sanitizePhone (rawValue : jsval) : result phone_parts :=
  if nullish rawValue then Ok no_phone
  else
    s <- js_String rawValue ;;
    let str := Str.trim s in
    if Str.is_empty str then Ok no_phone
    else
      let digits := Str.filter Str.is_digit str in
      let startsWithPlus := Str.startsWith str "+" in
      if Str.is_empty digits then Ok no_phone
      else
        let digits :=
          if 20 <? Str.len digits then Str.slice0 20 digits else digits in
        let display := if startsWithPlus then "+" ++ digits else digits in
        Ok (mkPhone display digits).

(* escapeLike: a backslash before every backslash, percent and underscore *)
Fixpoint escapeLike (str : string) : string :=
  match str with
  | EmptyString => EmptyString
  | String c r =>
      if Ascii.eqb c "\" || Ascii.eqb c "%" || Ascii.eqb c "_"
      then String "\" (String c (escapeLike r))
      else String c (escapeLike r)
  end.


(** ** Events, rows and the store interface

    The module [../db] is not part of these sources: its [query] function
    is taken as a parameter, an arbitrary state machine that answers each
    statement with a reply or a rejected promise. *)

(* [o?.k] for the property names read by the router (none of them is
   inherited from a prototype). *)
Definition prop (o : jsval) (k : string) : jsval :=
  match o with
  | JObj props =>
      match own props k with
      | Some v => v
      | None => JUndefined
      end
  | _ => JUndefined
  end.

Record meta_t : Type := mkMeta {
  callerName : option string;
  personId : jsval
}.

(* The in-memory event object; [None] is JavaScript's [null]. *)
Record entry : Type := mkEntry {
  e_id : string;
  e_phone : string;
  e_digits : option string;
  e_extension : option string;
  e_source : option string;
  e_status : option string;
  e_note : option string;
  e_received_at : Z;
  e_meta : meta_t
}.

(* A result row.  The join columns are [None] in rows of a plain
   [SELECT * FROM incoming_calls]. *)
Record row : Type := mkRow {
  r_id : Z;
  r_phone : string;
  r_digits : option string;
  r_extension : option string;
  r_source : option string;
  r_status : option string;
  r_note : option string;
  r_caller_name : option string;
  r_person_id : option Z;
  r_received_at : Z;
  r_linked_person_id : option Z;
  r_person_name : option string
}.

(* The bound values of the INSERT statement, in column order. *)
Record insert_params : Type := mkInsert {
  i_phone : string;
  i_digits : option string;
  i_extension : option string;
  i_source : option string;
  i_status : string;
  i_note : option string;
  i_caller_name : option string;
  i_person_id : jsval;
  i_received_at : Z
}.

Inductive sql : Type :=
| CreateTableIfNotExists
| SelectRecent (limit : Z)
| InsertCall (params : insert_params)
| SelectLog (like : option string) (limit : Z).

Record reply : Type := mkReply {
  rows : option (list row);
  insertId : option Z
}.

Class Store (DB : Type) : Type := {
  db_query : DB -> sql -> result reply * DB
}.

(** ** Module state and the runtime around it *)

Definition MAX_HISTORY : Z := 500.

(* A stream listener: its response object (the sink, named by a number)
   and the handle of its heartbeat interval. *)
Record listener : Type := mkListener {
  res : nat;
  heartbeat : option nat
}.

Definition listener_eqb (a b : listener) : bool :=
  Nat.eqb (res a) (res b) &&
  match heartbeat a, heartbeat b with
  | Some x, Some y => Nat.eqb x y
  | None, None => true
  | _, _ => false
  end.

Record state : Type := mkState {
  listeners : list listener;          (* a Set, in insertion order *)
  lastCall : option entry;
  sequence : Z;
  secretWarningLogged : bool;
  callHistory : list entry;
  readyPromise : option (result unit) (* the settled outcome, once created *)
}.

Definition initial_state : state :=
  mkState [] None 0 false [] None.

Inductive frame : Type :=
| RetryFrame                (* "retry: 4000\n\n" *)
| KeepAliveFrame            (* ": keep-alive\n\n" *)
| CallFrame (e : entry)     (* "id: ..\nevent: call\ndata: <JSON>\n\n" *).

(* What the router can observe or change outside its own variables: the
   active intervals, the next interval handle, and the frames accepted by
   each sink, oldest first. *)
Record runtime : Type := mkRuntime {
  timers : list nat;
  next_timer : nat;
  written : list (nat * frame)
}.

Definition initial_runtime : runtime := mkRuntime [] 0 [].

Definition set_listeners (ls : list listener) (st : state) : state :=
  mkState ls (lastCall st) (sequence st) (secretWarningLogged st)
          (callHistory st) (readyPromise st).

Definition set_lastCall (c : option entry) (st : state) : state :=
  mkState (listeners st) c (sequence st) (secretWarningLogged st)
          (callHistory st) (readyPromise st).

Definition set_sequence (n : Z) (st : state) : state :=
  mkState (listeners st) (lastCall st) n (secretWarningLogged st)
          (callHistory st) (readyPromise st).

Definition set_secretWarningLogged (b : bool) (st : state) : state :=
  mkState (listeners st) (lastCall st) (sequence st) b
          (callHistory st) (readyPromise st).

Definition set_callHistory (h : list entry) (st : state) : state :=
  mkState (listeners st) (lastCall st) (sequence st) (secretWarningLogged st)
          h (readyPromise st).

Definition set_readyPromise (p : option (result unit)) (st : state) : state :=
  mkState (listeners st) (lastCall st) (sequence st) (secretWarningLogged st)
          (callHistory st) p.

(* clearInterval(t) *)
Definition clearInterval (t : nat) (rt : runtime) : runtime :=
  mkRuntime (List.filter (fun u => negb (Nat.eqb u t)) (timers rt))
            (next_timer rt) (written rt).

(* setInterval(...): a fresh handle, now active *)
Definition setInterval (rt : runtime) : nat * runtime :=
  (next_timer rt,
   mkRuntime (timers rt ++ [next_timer rt]) (S (next_timer rt)) (written rt)).

(* sink.write(f): [fails] tells which sinks throw on a write *)
Definition write (fails : nat -> bool) (sink : nat) (f : frame)
                 (rt : runtime) : option runtime :=
  if fails sink then None
  else Some (mkRuntime (timers rt) (next_timer rt) (written rt ++ [(sink, f)])).

(** ** History ring and broadcaster *)

(* callHistory.unshift(entry); if (length > MAX_HISTORY) callHistory.pop() *)
Definition storeInHistory (e : entry) (st : state) : state :=
  let h := e :: callHistory st in
  if MAX_HISTORY <? Z.of_nat (List.length h)
  then set_callHistory (removelast h) st
  else set_callHistory h st.

Definition cleanupListener (l : listener) (w : state * runtime)
  : state * runtime :=
  let '(st, rt) := w in
  let rt1 := match heartbeat l with
             | Some t => clearInterval t rt
             | None => rt
             end in
  (set_listeners
     (List.filter (fun x => negb (listener_eqb x l)) (listeners st)) st,
   rt1).

(* One turn of the loop of [broadcast] *)
Definition deliver (fails : nat -> bool) (event : entry)
                   (w : state * runtime) (l : listener) : state * runtime :=
  match write fails (res l) (CallFrame event) (snd w) with
  | Some rt1 => (fst w, rt1)
  | None => cleanupListener l w
  end.

(* for (const listener of Array.from(listeners)) { try .. catch .. } *)
Definition broadcast (fails : nat -> bool) (event : entry)
                     (w : state * runtime) : state * runtime :=
  fold_left (deliver fails event) (listeners (fst w)) w.

(* The callback of a listener's heartbeat interval *)
Definition heartbeatTick (fails : nat -> bool) (l : listener)
                         (w : state * runtime) : state * runtime :=
  match write fails (res l) KeepAliveFrame (snd w) with
  | Some rt1 => (fst w, rt1)
  | None => cleanupListener l w
  end.

(** ** The router *)

Record request : Type := mkRequest {
  header_secret : option string;   (* req.get('x-pbx-secret') *)
  body : jsval;                    (* req.body *)
  query : jsval;                   (* req.query *)
  user : bool                      (* whether req.user is set *)
}.

Inductive payload : Type :=
| ErrorBody (msg : string)              (* { error: msg } *)
| SuccessBody                           (* { success: true } *)
| CallBody (call : option entry).       (* { call: lastCall } *)

Record log_entry : Type := mkLogEntry {
  l_id : string;
  l_phone : string;
  l_digits : option string;
  l_received_at : Z;
  l_extension : option string;
  l_source : option string;
  l_status : option string;
  l_note : option string;
  l_caller_name : option string;
  l_person_id : option Z
}.

Inductive response : Type :=
| Json (status : Z) (b : payload)
| Entries (entries : list log_entry)    (* 200 { entries } *)
| StreamOpen                            (* the event stream stays open *)
| Unhandled (e : error).                (* the handler's promise rejected *)

(* The normalised fields of an incoming call (lines 157-173) *)
Record call_fields : Type := mkFields {
  f_phone : phone_parts;
  f_extension : option string;
  f_source : option string;
  f_status : string;
  f_note : option string;
  f_meta : meta_t
}.

(* [s || null] for a string-or-null *)
Definition or_null (s : option string) : option string :=
  match s with
  | Some t => if Str.is_empty t then None else Some t
  | None => None
  end.

(* [a || b] on two strings *)
Definition str_or (a b : string) : string :=
  if Str.is_empty a then b else a.

(* req.body?.phone ?? req.body?.caller ?? req.body?.number ?? '' *)
Definition phoneInput (body : jsval) : jsval :=
  coalesce (coalesce (coalesce (prop body "phone") (prop body "caller"))
                     (prop body "number"))
           (JStr "").

(* v != null ? String(v).trim() : null *)
Definition trimmed_or_null (v : jsval) : result (option string) :=
  if nullish v then Ok None
  else s <- js_String v ;; Ok (Some (Str.trim s)).

(* Lines 157-173.  [Ok None] is the 400 answer. *)
Definition normalize (body : jsval) : result (option call_fields) :=
  p <- sanitizePhone (phoneInput body) ;;
  if Str.is_empty (display p) && Str.is_empty (digits p) then Ok None
  else
    extension <- trimmed_or_null (prop body "extension") ;;
    source <- trimmed_or_null (prop body "source") ;;
    status <- normalizeStatus (prop body "status") ;;
    let note := if_string (prop body "note") (fun s => Some (Str.trim s)) None in
    let meta :=
      mkMeta (if_string (prop body "name")
                        (fun s => or_null (Some (Str.trim s))) None)
             (coalesce (prop body "person_id") JNull) in
    Ok (Some (mkFields p extension source status note meta)).

Definition insert_of (receivedAt : Z) (f : call_fields) : insert_params :=
  mkInsert (str_or (display (f_phone f)) (digits (f_phone f)))
           (or_null (Some (digits (f_phone f))))
           (or_null (f_extension f))
           (or_null (f_source f))
           (f_status f)
           (or_null (f_note f))
           (callerName (f_meta f))
           (personId (f_meta f))
           receivedAt.

Definition entry_of (id : string) (receivedAt : Z) (f : call_fields) : entry :=
  mkEntry id
          (str_or (display (f_phone f)) (digits (f_phone f)))
          (Some (digits (f_phone f)))
          (or_null (f_extension f))
          (or_null (f_source f))
          (Some (f_status f))
          (or_null (f_note f))
          receivedAt
          (f_meta f).

(* [Number.parseInt(s, 10)]: leading white space, an optional sign, then
   the longest run of decimal digits; [None] is NaN.  The value is the
   exact integer (beyond 2^53 the double is a rounding of it, far outside
   the interval the router clamps to, on the same side). *)
Fixpoint digits_value (acc : Z) (s : string) : Z :=
  match s with
  | String c r =>
      if Str.is_digit c
      then digits_value (10 * acc + (Z.of_N (Str.code c) - 48)) r
      else acc
  | EmptyString => acc
  end.

Definition parseInt10 (s : string) : option Z :=
  let s1 := Str.trimStart s in
  let '(negative, s2) :=
    match s1 with
    | String "-" r => (true, r)
    | String "+" r => (false, r)
    | _ => (false, s1)
    end in
  match s2 with
  | String c _ =>
      if Str.is_digit c
      then Some (if negative then - digits_value 0 s2 else digits_value 0 s2)
      else None
  | EmptyString => None
  end.

(* Line 291:
   Math.max(1, Math.min(Number.parseInt(limit, 10) || 100, MAX_HISTORY)) *)
Definition logLimit (limit : jsval) : result Z :=
  s <- js_String limit ;;
  let parsed :=
    match parseInt10 s with
    | Some n => if n =? 0 then 100 else n
    | None => 100
    end in
  Ok (Z.max 1 (Z.min parsed MAX_HISTORY)).

(* Lines 292-305: the LIKE pattern, when there is a search term *)
Definition logLike (search : jsval) : option string :=
  let term := if_string search Str.trim "" in
  if Str.is_empty term then None
  else Some ("%" ++ escapeLike term ++ "%").

Definition opt_str_or (a b : option string) : option string :=
  match or_null a with
  | Some s => Some s
  | None => or_null b
  end.

Definition opt_num_or (a b : option Z) : option Z :=
  match a with
  | Some n => if n =? 0 then match b with
                             | Some m => if m =? 0 then None else Some m
                             | None => None
                             end
              else Some n
  | None => match b with
            | Some m => if m =? 0 then None else Some m
            | None => None
            end
  end.

Definition log_entry_of_row (r : row) : log_entry :=
  mkLogEntry (Str.of_Z (r_id r)) (r_phone r) (r_digits r) (r_received_at r)
             (r_extension r) (r_source r) (r_status r) (r_note r)
             (opt_str_or (r_caller_name r) (r_person_name r))
             (opt_num_or (r_person_id r) (r_linked_person_id r)).

Definition entry_of_row (r : row) : entry :=
  mkEntry (Str.of_Z (r_id r)) (r_phone r) (r_digits r) (r_extension r)
          (r_source r) (r_status r) (r_note r) (r_received_at r)
          (mkMeta (r_caller_name r)
                  (match r_person_id r with
                   | Some n => JNum n
                   | None => JNull
                   end)).

(* One turn of the bootstrap loop (lines 81-95) *)
Definition load_row (st : state) (r : row) : state :=
  set_sequence (Z.max (sequence st) (if r_id r =? 0 then 0 else r_id r))
    (set_callHistory (callHistory st ++ [entry_of_row r]) st).

(* [rows || []] *)
Definition rows_or_nil (rep : reply) : list row :=
  match rows rep with
  | Some l => l
  | None => []
  end.

(* The first-wins comparison of the shared secret (lines 146-151) *)
Definition providedSecret (req : request) : jsval :=
  js_or (js_or (match header_secret req with
                | Some s => JStr s
                | None => JUndefined
                end)
               (prop (body req) "secret"))
        (prop (query req) "secret").

Definition secret_matches (provided : jsval) (expected : string) : bool :=
  truthy provided &&
  match provided with
  | JStr s => String.eqb s expected
  | _ => false
  end.

(* Lines 145-155: [None] is the 401 answer; otherwise the state, with the
   warning flag raised when no secret is configured. *)
Definition authorize (expectedSecret : option string) (req : request)
                     (st : state) : option state :=
  match or_null expectedSecret with
  | Some expected =>
      if secret_matches (providedSecret req) expected then Some st else None
  | None =>
      if secretWarningLogged st then Some st
      else Some (set_secretWarningLogged true st)
  end.

(* listeners.add(l) *)
Definition add_listener (l : listener) (st : state) : state :=
  if existsb (listener_eqb l) (listeners st) then st
  else set_listeners (listeners st ++ [l]) st.

Section Router.

Context {DB : Type} `{Store DB}.

Definition world : Type := state * runtime * DB.

(* The body of the async arrow function of lines 54-105 *)
Definition prepare (st : state) (db : DB) : result unit * state * DB :=
  let '(created, db1) := db_query db CreateTableIfNotExists in
  match created with
  | Throw e => (Throw e, st, db1)
  | Ok _ =>
      let '(selected, db2) := db_query db1 (SelectRecent MAX_HISTORY) in
      match selected with
      | Throw e => (Throw e, st, db2)
      | Ok rep =>
          let st1 := fold_left load_row (rows_or_nil rep)
                               (set_callHistory [] st) in
          let st2 := match callHistory st1 with
                     | first :: _ => set_lastCall (Some first) st1
                     | [] => st1
                     end in
          (Ok tt, st2, db2)
      end
  end.

(* if (!readyPromise) readyPromise = (async () => ..)(); return readyPromise *)
Definition ensurePersistenceReady (st : state) (db : DB)
  : result unit * state * DB :=
  match readyPromise st with
  | Some outcome => (outcome, st, db)
  | None =>
      let '(outcome, st1, db1) := prepare st db in
      (outcome, set_readyPromise (Some outcome) st1, db1)
  end.

(* Lines 175-218: the try block around the INSERT *)
Definition persist (fails : nat -> bool) (receivedAt : Z) (f : call_fields)
                   (w : world) : response * world :=
  let '(st, rt, db) := w in
  let '(inserted, db1) := db_query db (InsertCall (insert_of receivedAt f)) in
  match inserted with
  | Throw _ => (Json 500 (ErrorBody "server error"), (st, rt, db1))
  | Ok insertRes =>
      let '(id, seq1) :=
        match insertId insertRes with
        | Some n => if n =? 0 then (sequence st + 1, sequence st + 1)
                    else (n, sequence st)
        | None => (sequence st + 1, sequence st + 1)
        end in
      let st1 := set_sequence (Z.max seq1 (if id =? 0 then seq1 else id)) st in
      let e := entry_of (Str.of_Z id) receivedAt f in
      let st2 := storeInHistory e st1 in
      let st3 := set_lastCall (Some e) st2 in
      let '(st4, rt4) := broadcast fails e (st3, rt) in
      (Json 200 SuccessBody, (st4, rt4, db1))
  end.

(* router.post('/') *)
Definition post (expectedSecret : option string) (fails : nat -> bool)
                (receivedAt : Z) (req : request) (w : world)
  : response * world :=
  let '(st, rt, db) := w in
  let '(ready, st1, db1) := ensurePersistenceReady st db in
  match ready with
  | Throw _ => (Json 500 (ErrorBody "server error"), (st1, rt, db1))
  | Ok _ =>
      match authorize expectedSecret req st1 with
      | None => (Json 401 (ErrorBody "invalid secret"), (st1, rt, db1))
      | Some st2 =>
          match normalize (body req) with
          | Throw e => (Unhandled e, (st2, rt, db1))
          | Ok None => (Json 400 (ErrorBody "phone missing"), (st2, rt, db1))
          | Ok (Some f) => persist fails receivedAt f (st2, rt, db1)
          end
      end
  end.

(* router.get('/stream') for the response stream [sink] *)
Definition getStream (fails : nat -> bool) (authenticated : bool)
                     (sink : nat) (w : world) : response * world :=
  let '(st, rt, db) := w in
  if negb authenticated then (Json 401 (ErrorBody "auth required"), w)
  else
    let '(ready, st1, db1) := ensurePersistenceReady st db in
    match ready with
    | Throw _ => (Json 500 (ErrorBody "server error"), (st1, rt, db1))
    | Ok _ =>
        match write fails sink RetryFrame rt with
        | None => (Unhandled WriteError, (st1, rt, db1))
        | Some rt1 =>
            let '(t, rt2) := setInterval rt1 in
            let st2 := add_listener (mkListener sink (Some t)) st1 in
            match lastCall st2 with
            | Some c =>
                match write fails sink (CallFrame c) rt2 with
                | Some rt3 => (StreamOpen, (st2, rt3, db1))
                | None => (Unhandled WriteError, (st2, rt2, db1))
                end
            | None => (StreamOpen, (st2, rt2, db1))
            end
        end
    end.

(* router.get('/last') *)
Definition getLast (authenticated : bool) (w : world) : response * world :=
  let '(st, rt, db) := w in
  if negb authenticated then (Json 401 (ErrorBody "auth required"), w)
  else
    let '(ready, st1, db1) := ensurePersistenceReady st db in
    match ready with
    | Throw _ => (Json 500 (ErrorBody "server error"), (st1, rt, db1))
    | Ok _ => (Json 200 (CallBody (lastCall st1)), (st1, rt, db1))
    end.

(* router.get('/log') *)
Definition getLog (authenticated : bool) (q : jsval) (w : world)
  : response * world :=
  let '(st, rt, db) := w in
  if negb authenticated then (Json 401 (ErrorBody "auth required"), w)
  else
    let '(ready, st1, db1) := ensurePersistenceReady st db in
    match ready with
    | Throw _ => (Json 500 (ErrorBody "server error"), (st1, rt, db1))
    | Ok _ =>
        match logLimit (prop q "limit") with
        | Throw e => (Unhandled e, (st1, rt, db1))
        | Ok limit =>
            let '(selected, db2) :=
              db_query db1 (SelectLog (logLike (prop q "search")) limit) in
            match selected with
            | Throw e => (Unhandled e, (st1, rt, db2))
            | Ok rep =>
                (Entries (List.map log_entry_of_row (rows_or_nil rep)),
                 (st1, rt, db2))
            end
        end
    end.

(** What can happen to the router, one run-to-completion turn each. *)
Inductive turn : Type :=
| PostCall (fails : nat -> bool) (receivedAt : Z) (req : request)
| GetStream (fails : nat -> bool) (authenticated : bool) (sink : nat)
| GetLast (authenticated : bool)
| GetLog (authenticated : bool) (q : jsval)
| Closed (l : listener)                      (* 'close', 'end', 'finish' *)
| Heartbeat (fails : nat -> bool) (l : listener).

Definition step (expectedSecret : option string) (w : world) (t : turn)
  : option response * world :=
  match t with
  | PostCall fails receivedAt req =>
      let '(r, w1) := post expectedSecret fails receivedAt req w in (Some r, w1)
  | GetStream fails authenticated sink =>
      let '(r, w1) := getStream fails authenticated sink w in (Some r, w1)
  | GetLast authenticated =>
      let '(r, w1) := getLast authenticated w in (Some r, w1)
  | GetLog authenticated q =>
      let '(r, w1) := getLog authenticated q w in (Some r, w1)
  | Closed l =>
      let '(st, rt, db) := w in
      let '(st1, rt1) := cleanupListener l (st, rt) in (None, (st1, rt1, db))
  | Heartbeat fails l =>
      let '(st, rt, db) := w in
      let '(st1, rt1) := heartbeatTick fails l (st, rt) in
      (None, (st1, rt1, db))
  end.

(* The world after a sequence of turns, with the answers given, oldest
   first. *)
Fixpoint run (expectedSecret : option string) (w : world) (ts : list turn)
  : list (option response) * world :=
  match ts with
  | [] => ([], w)
  | t :: rest =>
      let '(r, w1) := step expectedSecret w t in
      let '(rs, w2) := run expectedSecret w1 rest in
      (r :: rs, w2)
  end.

End Router.

(** ** The reading of the payload fields that the specification gives

    "phone | caller | number (first non-empty wins)": the first of the
    three fields that holds something other than the empty string; kept
    apart from [phoneInput], which is what the router computes. *)

Definition non_empty (v : jsval) : bool :=
  match v with
  | JUndefined | JNull => false
  | JStr s => negb (Str.is_empty s)
  | _ => true
  end.

Definition first_non_empty (body : jsval) : jsval :=
  match List.find non_empty
          [prop body "phone"; prop body "caller"; prop body "number"] with
  | Some v => v
  | None => JStr ""
  end.

(* The reading that the router implements: the first field that is
   present, empty or not. *)
Definition first_present (body : jsval) : jsval :=
  match List.find (fun v => negb (nullish v))
          [prop body "phone"; prop body "caller"; prop body "number"] with
  | Some v => v
  | None => JStr ""
  end.

(* The interval clamp of the query limit *)
Definition clamp (lo hi n : Z) : Z := Z.max lo (Z.min n hi).

(** ** A store double

    An in-memory table, newest row first, with a script of outages (the
    next query is rejected when the head of the script is [true]) and a
    counter of the queries received.  It interprets the statements the
    router sends and serves as the concrete store of the examples below;
    the LIKE pattern of the log query is not interpreted. *)

Module MemStore.

Record t : Type := mk {
  table : list row;
  auto_increment : Z;
  outages : list bool;
  calls : nat
}.

Definition row_of (id : Z) (p : insert_params) : row :=
  mkRow id (i_phone p) (i_digits p) (i_extension p) (i_source p)
        (Some (i_status p)) (i_note p) (i_caller_name p)
        (match i_person_id p with JNum n => Some n | _ => None end)
        (i_received_at p) None None.

Definition query (d : t) (q : sql) : result reply * t :=
  let d1 := mk (table d) (auto_increment d) (tl (outages d)) (S (calls d)) in
  if hd false (outages d) then (Throw (StoreError 2002), d1)
  else
    match q with
    | CreateTableIfNotExists => (Ok (mkReply None None), d1)
    | SelectRecent limit =>
        (Ok (mkReply (Some (firstn (Z.to_nat limit) (table d))) None), d1)
    | InsertCall p =>
        (Ok (mkReply None (Some (auto_increment d))),
         mk (row_of (auto_increment d) p :: table d)
            (auto_increment d + 1) (tl (outages d)) (S (calls d)))
    | SelectLog _ limit =>
        (Ok (mkReply (Some (firstn (Z.to_nat limit) (table d))) None), d1)
    end.

#[global] Instance store : Store t := {| db_query := query |}.

(* An empty table; the [n] first queries are rejected. *)
Definition down_for (n : nat) : t := mk [] 1 (repeat true n) 0.

Definition empty : t := down_for 0.

End MemStore.

(** ** Vocabulary of the properties *)

(* An event for the examples *)
Definition sample_entry (n : Z) : entry :=
  mkEntry (Str.of_Z n) "0712345678" (Some "0712345678") None None
          (Some "ringing") None n (mkMeta None JNull).

(* Whether a write on the sink of [l] throws *)
Definition dead (fails : nat -> bool) (l : listener) : bool := fails (res l).

(* Whether the interval [t] is the heartbeat of [l] *)
Definition beats (t : nat) (l : listener) : bool :=
  match heartbeat l with
  | Some u => Nat.eqb u t
  | None => false
  end.

(* The ring, the last-known call and the initialisation outcome are left
   as they were. *)
Definition same_ring (st st1 : state) : Prop :=
  callHistory st1 = callHistory st /\ lastCall st1 = lastCall st /\
  readyPromise st1 = readyPromise st.


(* The ring holds at most MAX_HISTORY entries. *)
Definition bounded (st : state) : Prop :=
  Z.of_nat (List.length (callHistory st)) <= MAX_HISTORY.

(* The module state of a world *)
Definition state_of {DB : Type} (w : state * runtime * DB) : state :=
  fst (fst w).


(** ** Vocabulary of the further properties *)

(* The characters that escapeLike protects *)
Definition like_special (c : ascii) : bool :=
  Ascii.eqb c "\" || Ascii.eqb c "%" || Ascii.eqb c "_".

Fixpoint count_special (s : string) : nat :=
  match s with
  | EmptyString => 0%nat
  | String c r => ((if like_special c then 1 else 0) + count_special r)%nat
  end.

(* How the store reads a pattern bound to [LIKE ? ESCAPE '\\'] (lines
   299-302): the escape character makes the next character literal, a
   bare percent matches any string, a bare underscore any one character. *)
Inductive like_token : Type :=
| LikeChar (c : ascii)
| LikeAnyString
| LikeAnyChar.

Fixpoint like_tokens (p : string) : list like_token :=
  match p with
  | EmptyString => []
  | String c r =>
      if Ascii.eqb c "\" then
        match r with
        | String d r1 => LikeChar d :: like_tokens r1
        | EmptyString => [LikeChar c]
        end
      else if Ascii.eqb c "%" then LikeAnyString :: like_tokens r
      else if Ascii.eqb c "_" then LikeAnyChar :: like_tokens r
      else LikeChar c :: like_tokens r
  end.

(* The places a request can carry the shared secret, in the order the
   router looks at them *)
Definition secret_candidates (req : request) : list jsval :=
  [match header_secret req with Some s => JStr s | None => JUndefined end;
   prop (body req) "secret";
   prop (query req) "secret"].

(* The number behind the id of a new event: the id the store reports, or
   the next value of the counter when it reports none. *)
Definition assigned_id (rep : reply) (seq : Z) : Z :=
  match insertId rep with
  | Some n => if n =? 0 then seq + 1 else n
  | None => seq + 1
  end.

(* No character of the string is white space. *)
Definition no_space (s : string) : bool :=
  Str.forallb (fun c => negb (Str.is_space c)) s.

(* The string is empty or starts with something else than white space. *)
Definition head_ok (s : string) : bool :=
  match s with
  | String c _ => negb (Str.is_space c)
  | EmptyString => true
  end.

(** * Properties *)

Example normalizeStatus_Ringing :
  normalizeStatus (JStr "  Ringing ") = Ok "ringing".
Proof. reflexivity. Qed.

Example normalizeStatus_no_answer_underscore :
  normalizeStatus (JStr "NO_ANSWER") = Ok "missed".
Proof. reflexivity. Qed.

Example normalizeStatus_array :
  normalizeStatus (JArr [JStr "Answered"]) = Ok "answered".
Proof. reflexivity. Qed.

Example sanitizePhone_plus :
  sanitizePhone (JStr " +40 (712) 345-678 ") = Ok (mkPhone "+40712345678" "40712345678").
Proof. reflexivity. Qed.

Example sanitizePhone_number :
  sanitizePhone (JNum 712345678) = Ok (mkPhone "712345678" "712345678").
Proof. reflexivity. Qed.

Example sanitizePhone_long :
  sanitizePhone (JStr "0123456789012345678901234") =
  Ok (mkPhone "01234567890123456789" "01234567890123456789").
Proof. reflexivity. Qed.

Example js_String_array :
  js_String (JArr [JNum 1; JNull; JArr [JStr "a"; JBool true]; JNum (-2)]) =
  Ok "1,,a,true,-2".
Proof. reflexivity. Qed.

(** ** Normalizer: strings *)

Lemma is_empty_true (s : string) : Str.is_empty s = true -> s = "".
Proof. destruct s; simpl; congruence. Qed.

Lemma space_not_digit (c : ascii) :
  Str.is_space c = true -> Str.is_digit c = false.
Proof.
  unfold Str.is_space, Str.is_digit; cbv zeta; intros Hs.
  destruct (48 <=? Str.code c)%N eqn:H1; [| reflexivity].
  destruct (Str.code c <=? 57)%N eqn:H2; [| reflexivity].
  apply N.leb_le in H1, H2.
  rewrite !orb_true_iff, andb_true_iff, !N.leb_le, !N.eqb_eq in Hs. lia.
Qed.

Lemma filter_all (p : ascii -> bool) (s : string) :
  Str.forallb p (Str.filter p s) = true.
Proof.
  induction s as [| c r IH]; simpl; [reflexivity |].
  destruct (p c) eqn:Hc; simpl; [rewrite Hc |]; exact IH.
Qed.




Lemma forallb_substring0 (p : ascii -> bool) (n : nat) (s : string) :
  Str.forallb p s = true -> Str.forallb p (substring 0 n s) = true.
Proof.
  revert s; induction n as [| n IH]; intros [| c r]; simpl; try reflexivity.
  rewrite !andb_true_iff. intros [Hc Hr]. split; [exact Hc | apply IH, Hr].
Qed.

Lemma length_substring0 (n : nat) (s : string) :
  (String.length (substring 0 n s) <= n)%nat.
Proof.
  revert s; induction n as [| n IH]; intros [| c r]; simpl; try lia.
  specialize (IH r). lia.
Qed.


Lemma has_label (s : string) :
  STATUS_LABELS_has s = true -> In s STATUS_LABELS.
Proof.
  unfold STATUS_LABELS_has. rewrite existsb_exists.
  intros [x [Hin Heq]]. apply String.eqb_eq in Heq. subst x. exact Hin.
Qed.

(** ** Normalizer: conversions *)

(* A value that [String] cannot convert is an object or an array, hence
   truthy and not nullish. *)
Lemma throwing_is_truthy (v : jsval) (e : error) :
  js_String v = Throw e -> truthy v = true /\ nullish v = false.
Proof.
  destruct v as [| | [|] | n | s | l | o]; simpl; try discriminate; auto.
Qed.

Lemma falsy_String (v : jsval) (s : string) :
  truthy v = false -> js_String v = Ok s ->
  In s ["undefined"; "null"; "false"; "0"; ""].
Proof.
  destruct v as [| | [|] | n | t | l | o]; simpl; try discriminate;
    intros Hf Hs; inversion Hs; subst; auto.
  - apply negb_false_iff, Z.eqb_eq in Hf. subst n. simpl. auto.
  - apply negb_false_iff, is_empty_true in Hf. subst. simpl. auto 6.
Qed.

(** ** normalizeStatus *)

(** C3, as stated, fails: the text "no answer" (with a space) is left as
    it is by trimming and lower-casing, and normalizeStatus answers
    "ringing" for it, not "missed". *)
Lemma no_answer_with_space_is_ringing :
  Str.toLowerCase (Str.trim "no answer") = "no answer" /\
  normalizeStatus (JStr "no answer") = Ok "ringing" /\
  normalizeStatus (JStr "no answer") <> Ok "missed".
Proof. repeat split; try reflexivity. discriminate. Qed.

(** C3, amended: normalizeStatus maps any input whose text, after trimming
    and lower-casing, equals "no_answer" (with an underscore) or
    "noanswer" to "missed". *)
Theorem normalizeStatus_synonyms (v : jsval) (s : string) :
  js_String v = Ok s ->
  Str.toLowerCase (Str.trim s) = "no_answer" \/
  Str.toLowerCase (Str.trim s) = "noanswer" ->
  normalizeStatus v = Ok "missed".
Proof.
  intros Hs Hsyn. unfold normalizeStatus.
  destruct (truthy v) eqn:Ht; simpl.
  - rewrite Hs; simpl. destruct Hsyn as [-> | ->]; reflexivity.
  - exfalso. pose proof (falsy_String v s Ht Hs) as Hin. simpl in Hin.
    destruct Hin as [<- | [<- | [<- | [<- | [<- | []]]]]];
      destruct Hsyn as [Hx | Hx]; vm_compute in Hx; discriminate.
Qed.

Lemma normalizeStatus_synonyms_witness :
  normalizeStatus (JStr "  No_Answer ") = Ok "missed".
Proof.
  apply (normalizeStatus_synonyms (JStr "  No_Answer ") "  No_Answer ").
  - reflexivity.
  - left. reflexivity.
Defined.

(** C8, as stated, fails on "never raises": a JSON object that carries a
    property named toString is truthy, and String() of it throws. *)
Lemma normalizeStatus_raises :
  normalizeStatus (JObj [("toString", JNum 1)]) = Throw TypeError.
Proof. reflexivity. Qed.

(** C8, amended: for every input that String() converts (every input but
    objects with an own toString property and arrays holding one),
    normalizeStatus returns a member of {ringing, answered, missed,
    rejected}, and returns "ringing" when the input is absent or its
    trimmed, lower-cased text is neither a label nor one of the two
    synonyms; on the other inputs it raises the error of String(). *)
Theorem normalizeStatus_closed_set (v : jsval) :
  match js_String v with
  | Ok s =>
      exists r, normalizeStatus v = Ok r /\ In r STATUS_LABELS /\
        (nullish v = true -> r = "ringing") /\
        (let status := Str.toLowerCase (Str.trim s) in
         STATUS_LABELS_has status = false ->
         status <> "no_answer" -> status <> "noanswer" -> r = "ringing")
  | Throw e => normalizeStatus v = Throw e
  end.
Proof.
  destruct (js_String v) as [s | e] eqn:Hs.
  - unfold normalizeStatus. destruct (truthy v) eqn:Ht; simpl.
    + rewrite Hs; simpl.
      destruct (STATUS_LABELS_has (Str.toLowerCase (Str.trim s))) eqn:Hl.
      * eexists; split; [reflexivity |]. split; [apply has_label, Hl |].
        split; [| discriminate].
        destruct v; simpl in *; try discriminate.
      * destruct (String.eqb (Str.toLowerCase (Str.trim s)) "no_answer") eqn:H1;
          [| destruct (String.eqb (Str.toLowerCase (Str.trim s)) "noanswer") eqn:H2];
          simpl; eexists; (split; [reflexivity |]); simpl; (split; [tauto |]).
        -- apply String.eqb_eq in H1. split; [| congruence].
           destruct v; simpl in *; discriminate.
        -- apply String.eqb_eq in H2. split; [| congruence].
           destruct v; simpl in *; discriminate.
        -- split; reflexivity.
    + exists "ringing". simpl. tauto.
  - destruct (throwing_is_truthy v e Hs) as [Ht _].
    unfold normalizeStatus. rewrite Ht, Hs. reflexivity.
Qed.

(** ** sanitizePhone *)



Example exact_numbers_examples :
  exact_numbers (JArr [JNum 712345678; JStr "x"; JObj [("n", JNum (2 ^ 60))]]) = true /\
  exact_numbers (JNum (2 ^ 53 - 1)) = true /\
  exact_numbers (JNum (2 ^ 53)) = false /\
  exact_numbers (JArr [JNum 1; JArr [JNum (- 2 ^ 60)]]) = false.
Proof. repeat split; reflexivity. Qed.

(** ** The limit of the log query *)

Example logLimit_absent : logLimit (prop (JObj []) "limit") = Ok 100.
Proof. reflexivity. Qed.

Example logLimit_25 : logLimit (JStr "25") = Ok 25.
Proof. reflexivity. Qed.

Example logLimit_negative : logLimit (JStr "-3") = Ok 1.
Proof. reflexivity. Qed.

Example logLimit_large : logLimit (JStr " 9000 rows") = Ok 500.
Proof. reflexivity. Qed.

Example logLimit_text : logLimit (JStr "many") = Ok 100.
Proof. reflexivity. Qed.




(** ** Phone extraction *)

Lemma phoneInput_first_present (b : jsval) :
  phoneInput b = first_present b.
Proof.
  unfold phoneInput, first_present, coalesce. cbn [List.find].
  destruct (prop b "phone"); cbn; try reflexivity;
    destruct (prop b "caller"); cbn; try reflexivity;
    destruct (prop b "number"); reflexivity.
Qed.

Section RouterProperties.

Context {DB : Type} `{Store DB}.

Implicit Types (st : state) (rt : runtime) (db : DB).

(** C1, amended: the phone value used is the first present (neither
    undefined nor null) value among the fields phone, caller, number,
    and the empty string when none is present; a phone field that is
    present but an empty string is the value used, whatever caller
    holds, and the request is rejected with 400 'phone missing'. *)
Theorem phone_first_present_wins
    (expectedSecret : option string) (fails : nat -> bool) (now : Z)
    (req : request) st rt db st1 db1 st2 :
  ensurePersistenceReady st db = (Ok tt, st1, db1) ->
  authorize expectedSecret req st1 = Some st2 ->
  phoneInput (body req) = first_present (body req) /\
  (prop (body req) "phone" = JStr "" ->
   phoneInput (body req) = JStr "" /\
   post expectedSecret fails now req (st, rt, db) =
     (Json 400 (ErrorBody "phone missing"), (st2, rt, db1))).
Proof.
  intros Hready Hauth. split; [apply phoneInput_first_present |].
  intros Hphone.
  assert (Hin : phoneInput (body req) = JStr "")
    by (unfold phoneInput; rewrite Hphone; reflexivity).
  split; [exact Hin |].
  unfold post. rewrite Hready, Hauth.
  unfold normalize. rewrite Hin. reflexivity.
Qed.

(** C2, amended: a failure of the one-time initialisation is remembered
    for good: every later call receives the same failed outcome, sends
    nothing to the store and leaves the state as it is, so that every
    later ingestion request is answered 500. *)
Theorem init_failure_is_remembered st db (e : error) st1 db1 :
  ensurePersistenceReady st db = (Throw e, st1, db1) ->
  forall db2,
    ensurePersistenceReady st1 db2 = (Throw e, st1, db2) /\
    forall expectedSecret fails now req rt,
      post expectedSecret fails now req (st1, rt, db2) =
        (Json 500 (ErrorBody "server error"), (st1, rt, db2)).
Proof.
  intros Hfirst db2.
  assert (Hp : readyPromise st1 = Some (Throw e)).
  { unfold ensurePersistenceReady in Hfirst.
    destruct (readyPromise st) as [outcome |] eqn:Hrp.
    - inversion Hfirst; subst. exact Hrp.
    - destruct (prepare st db) as [[outcome st'] db'].
      inversion Hfirst; subst. reflexivity. }
  assert (Hagain : ensurePersistenceReady st1 db2 = (Throw e, st1, db2))
    by (unfold ensurePersistenceReady; rewrite Hp; reflexivity).
  split; [exact Hagain |].
  intros. unfold post. rewrite Hagain. reflexivity.
Qed.

End RouterProperties.

(** C1, as stated, fails: with phone present but empty and caller a phone
    number, the first non-empty field is caller, yet the router takes the
    empty phone and answers 400 'phone missing'. *)
Lemma empty_phone_shadows_caller :
  let b := JObj [("phone", JStr ""); ("caller", JStr "0712345678")] in
  first_non_empty b = JStr "0712345678" /\
  phoneInput b = JStr "" /\
  fst (post None (fun _ => false) 0 (mkRequest None b (JObj []) false)
            (initial_state, initial_runtime, MemStore.empty)) =
    Json 400 (ErrorBody "phone missing").
Proof. repeat split; reflexivity. Qed.

Lemma phone_first_present_wins_witness :
  let req := mkRequest None (JObj [("phone", JStr ""); ("caller", JStr "0712345678")])
                       (JObj []) false in
  post None (fun _ => false) 0 req
       (initial_state, initial_runtime, MemStore.empty) =
    (Json 400 (ErrorBody "phone missing"),
     (mkState [] None 0 true [] (Some (Ok tt)), initial_runtime,
      MemStore.mk [] 1 [] 2)).
Proof.
  intros req.
  apply (phone_first_present_wins None (fun _ => false) 0 req
           initial_state initial_runtime MemStore.empty
           (mkState [] None 0 false [] (Some (Ok tt))) (MemStore.mk [] 1 [] 2)
           (mkState [] None 0 true [] (Some (Ok tt))));
    reflexivity.
Defined.

(** C2, as stated, fails: after an initialisation that the store made
    fail, the store is back (a fresh attempt would succeed), yet the next
    call returns the remembered failure without sending any query. *)
Lemma init_failure_is_not_retried :
  let '(first, st1, db1) :=
    ensurePersistenceReady initial_state (MemStore.down_for 1) in
  first = Throw (StoreError 2002) /\
  fst (fst (prepare st1 db1)) = Ok tt /\
  ensurePersistenceReady st1 db1 = (Throw (StoreError 2002), st1, db1) /\
  MemStore.calls (snd (ensurePersistenceReady st1 db1)) = MemStore.calls db1.
Proof. repeat split; reflexivity. Qed.

Lemma init_failure_is_remembered_witness :
  let st1 := mkState [] None 0 false [] (Some (Throw (StoreError 2002))) in
  ensurePersistenceReady st1 MemStore.empty =
    (Throw (StoreError 2002), st1, MemStore.empty).
Proof.
  intros st1.
  assert (Hfirst : ensurePersistenceReady initial_state (MemStore.down_for 1) =
                   (Throw (StoreError 2002), st1, MemStore.mk [] 1 [] 1))
    by reflexivity.
  exact (proj1 (init_failure_is_remembered _ _ _ _ _ Hfirst MemStore.empty)).
Defined.

(** ** History ring *)

Example ring_of_three :
  List.map e_id
    (callHistory (fold_left (fun s e => storeInHistory e s)
                            [sample_entry 1; sample_entry 2; sample_entry 3]
                            initial_state)) = ["3"; "2"; "1"].
Proof. reflexivity. Qed.

Lemma storeInHistory_fields (e : entry) (st : state) :
  listeners (storeInHistory e st) = listeners st /\
  lastCall (storeInHistory e st) = lastCall st /\
  sequence (storeInHistory e st) = sequence st /\
  readyPromise (storeInHistory e st) = readyPromise st.
Proof.
  unfold storeInHistory.
  destruct (MAX_HISTORY <? Z.of_nat (List.length (e :: callHistory st)));
    repeat split.
Qed.

(* The head of the ring after a push is the pushed entry. *)
Lemma storeInHistory_head (e : entry) (st : state) :
  exists tail, callHistory (storeInHistory e st) = e :: tail.
Proof.
  unfold storeInHistory.
  destruct (MAX_HISTORY <? Z.of_nat (List.length (e :: callHistory st))) eqn:Hfull.
  - apply Z.ltb_lt in Hfull. unfold MAX_HISTORY in Hfull.
    destruct (callHistory st) as [| x h]; [simpl in Hfull; lia |].
    exists (removelast (x :: h)). reflexivity.
  - exists (callHistory st). reflexivity.
Qed.

Lemma storeInHistory_firstn (e : entry) (st : state) :
  (List.length (callHistory st) <= 500)%nat ->
  callHistory (storeInHistory e st) = firstn 500 (e :: callHistory st).
Proof.
  intros Hlen. unfold storeInHistory.
  destruct (MAX_HISTORY <? Z.of_nat (List.length (e :: callHistory st))) eqn:Hfull.
  - apply Z.ltb_lt in Hfull. unfold MAX_HISTORY in Hfull.
    cbn [callHistory set_callHistory]. rewrite removelast_firstn_len.
    replace (Nat.pred (List.length (e :: callHistory st))) with 500%nat
      by (cbn [List.length] in *; lia).
    reflexivity.
  - apply Z.ltb_ge in Hfull. unfold MAX_HISTORY in Hfull.
    cbn [callHistory set_callHistory]. symmetry. apply firstn_all2. lia.
Qed.

Lemma firstn_app_firstn {A} (n : nat) (a b : list A) :
  firstn n (a ++ firstn n b) = firstn n (a ++ b).
Proof.
  rewrite !firstn_app, firstn_firstn.
  replace (Nat.min (n - List.length a) n) with (n - List.length a)%nat by lia.
  reflexivity.
Qed.

Lemma push_all_firstn (evs : list entry) :
  forall st,
    (List.length (callHistory st) <= 500)%nat ->
    callHistory (fold_left (fun s e => storeInHistory e s) evs st) =
    firstn 500 (rev evs ++ callHistory st).
Proof.
  induction evs as [| e evs IH]; intros st Hlen.
  - cbn [fold_left rev app]. symmetry. apply firstn_all2. exact Hlen.
  - cbn [fold_left rev]. rewrite IH.
    + rewrite (storeInHistory_firstn e st Hlen), firstn_app_firstn.
      rewrite <- app_assoc. reflexivity.
    + rewrite (storeInHistory_firstn e st Hlen). apply firstn_le_length.
Qed.

(* One push, and any number of pushes, on a ring within its bound. *)
Lemma history_ring_bounded_aux (st : state) :
  bounded st ->
  (forall e,
     bounded (storeInHistory e st) /\
     (callHistory (storeInHistory e st) = e :: callHistory st \/
      callHistory (storeInHistory e st) = e :: removelast (callHistory st))) /\
  (forall evs,
     bounded (fold_left (fun s e => storeInHistory e s) evs st) /\
     callHistory (fold_left (fun s e => storeInHistory e s) evs st) =
       firstn 500 (rev evs ++ callHistory st)).
Proof.
  unfold bounded, MAX_HISTORY. intros Hlen.
  assert (Hlen' : (List.length (callHistory st) <= 500)%nat) by lia.
  split.
  - intros e. split.
    + rewrite (storeInHistory_firstn e st Hlen').
      pose proof (firstn_le_length 500 (e :: callHistory st)). lia.
    + unfold storeInHistory.
      destruct (MAX_HISTORY <? Z.of_nat (List.length (e :: callHistory st))) eqn:Hfull;
        [right | left; reflexivity].
      apply Z.ltb_lt in Hfull. unfold MAX_HISTORY in Hfull.
      destruct (callHistory st) as [| x h]; [simpl in Hfull; lia | reflexivity].
  - intros evs. rewrite (push_all_firstn evs st Hlen'). split.
    + pose proof (firstn_le_length 500 (rev evs ++ callHistory st)). lia.
    + reflexivity.
Qed.

(** C6: the ring never holds more than 500 entries; every push puts the
    event at the front and drops at most the last entry; after any
    sequence of pushes the ring is the 500 newest of them followed by what
    was there, newest first; and once 500 or more distinct events have
    been pushed, the ring is exactly the last 500 pushed, newest first,
    every earlier one absent. *)
Theorem history_ring_keeps_newest (st : state) :
  Z.of_nat (List.length (callHistory st)) <= MAX_HISTORY ->
  (forall e,
     let h := callHistory (storeInHistory e st) in
     Z.of_nat (List.length h) <= MAX_HISTORY /\
     (h = e :: callHistory st \/ h = e :: removelast (callHistory st))) /\
  (forall evs,
     let h := callHistory (fold_left (fun s e => storeInHistory e s) evs st) in
     Z.of_nat (List.length h) <= MAX_HISTORY /\
     h = firstn 500 (rev evs ++ callHistory st)) /\
  (forall old recent,
     List.length recent = 500%nat -> NoDup (old ++ recent) ->
     let h := callHistory (fold_left (fun s e => storeInHistory e s)
                                     (old ++ recent) st) in
     h = rev recent /\ forall e, In e old -> ~ In e h).
Proof.
  intros Hlen.
  destruct (history_ring_bounded_aux st Hlen) as [Hone Hmany].
  split; [exact Hone |]. split; [exact Hmany |].
  intros old recent Hrecent Hnodup. cbv zeta.
  rewrite (proj2 (Hmany (old ++ recent)%list)).
  rewrite rev_app_distr, <- app_assoc, firstn_app.
  rewrite length_rev, Hrecent, Nat.sub_diag, firstn_O, app_nil_r.
  rewrite firstn_all2 by (rewrite length_rev; lia).
  split; [reflexivity |].
  intros e Hold Hin. apply in_rev in Hin.
  revert e Hold Hin. clear - Hnodup.
  induction old as [| x old IH]; intros e Hold Hin; [destruct Hold |].
  cbn [app] in Hnodup. inversion Hnodup as [| y l Hx Hrest]; subst.
  destruct Hold as [-> | Hold].
  + apply Hx. apply in_or_app. right. exact Hin.
  + exact (IH Hrest e Hold Hin).
Qed.

Lemma history_ring_keeps_newest_witness :
  let h := callHistory (storeInHistory (sample_entry 7) initial_state) in
  Z.of_nat (List.length h) <= MAX_HISTORY /\
  (h = sample_entry 7 :: callHistory initial_state \/
   h = sample_entry 7 :: removelast (callHistory initial_state)).
Proof.
  assert (Hempty : Z.of_nat (List.length (callHistory initial_state)) <= MAX_HISTORY)
    by (vm_compute; discriminate).
  exact (proj1 (history_ring_keeps_newest initial_state Hempty) (sample_entry 7)).
Defined.

(** ** Broadcaster *)

Lemma listener_eqb_eq (a b : listener) : listener_eqb a b = true <-> a = b.
Proof.
  destruct a as [ra [ha |]], b as [rb [hb |]]; unfold listener_eqb; simpl;
    rewrite ?andb_true_iff, ?Nat.eqb_eq; split;
    try (intros [-> ->]; reflexivity); try (intros [-> _]; reflexivity);
    try (intros [_ Hf]; discriminate);
    intros Heq; inversion Heq; subst; auto.
Qed.

Lemma filter_twice {A} (f g : A -> bool) (l : list A) :
  List.filter f (List.filter g l) = List.filter (fun x => g x && f x) l.
Proof.
  induction l as [| x l IH]; simpl; [reflexivity |].
  destruct (g x); simpl; [destruct (f x) |]; rewrite IH; reflexivity.
Qed.

Lemma deliver_dead (fails : nat -> bool) (ev : entry) (l : listener)
                   (w : state * runtime) :
  fails (res l) = true -> deliver fails ev w l = cleanupListener l w.
Proof. intros Hd. unfold deliver, write. rewrite Hd. reflexivity. Qed.

Lemma deliver_live (fails : nat -> bool) (ev : entry) (l : listener)
                   (st : state) (rt : runtime) :
  fails (res l) = false ->
  deliver fails ev (st, rt) l =
  (st, mkRuntime (timers rt) (next_timer rt)
                 (written rt ++ [(res l, CallFrame ev)])).
Proof. intros Hd. unfold deliver, write. cbn [snd fst]. rewrite Hd. reflexivity. Qed.

(* The loop of [broadcast] over a snapshot [ls], from any state: the
   frames are appended for the live sinks, and exactly the listeners of
   the snapshot whose sink is dead leave the registry, their intervals
   cleared. *)
Lemma deliver_loop (fails : nat -> bool) (ev : entry) (ls : list listener) :
  forall st rt,
    let '(st1, rt1) := fold_left (deliver fails ev) ls (st, rt) in
    written rt1 =
      (written rt ++ List.map (fun l => (res l, CallFrame ev))
                              (List.filter (fun l => negb (dead fails l)) ls))%list /\
    listeners st1 =
      List.filter (fun x => negb (existsb (listener_eqb x)
                                          (List.filter (dead fails) ls)))
                  (listeners st) /\
    timers rt1 =
      List.filter (fun t => negb (existsb (beats t)
                                          (List.filter (dead fails) ls)))
                  (timers rt) /\
    next_timer rt1 = next_timer rt /\
    lastCall st1 = lastCall st /\ callHistory st1 = callHistory st /\
    sequence st1 = sequence st /\ readyPromise st1 = readyPromise st /\
    secretWarningLogged st1 = secretWarningLogged st.
Proof.
  induction ls as [| l ls IH]; intros st rt.
  - cbn [fold_left List.filter List.map existsb negb]. rewrite app_nil_r.
    repeat split.
    + induction (listeners st) as [| x xs IHx]; simpl; congruence.
    + induction (timers rt) as [| x xs IHx]; simpl; congruence.
  - cbn [fold_left List.filter]. change (dead fails l) with (fails (res l)).
    destruct (fails (res l)) eqn:Hdead; cbn [negb].
    + rewrite (deliver_dead fails ev l (st, rt) Hdead). unfold cleanupListener.
      specialize (IH (set_listeners
                        (List.filter (fun x => negb (listener_eqb x l)) (listeners st)) st)
                     (match heartbeat l with
                      | Some t => clearInterval t rt
                      | None => rt
                      end)).
      destruct (fold_left (deliver fails ev) ls _) as [st1 rt1].
      destruct IH as (Hw & Hl & Ht & Hn & H1 & H2 & H3 & H4 & H5).
      cbn [existsb].
      repeat split; try assumption.
      * rewrite Hw. destruct (heartbeat l); reflexivity.
      * rewrite Hl. cbn [listeners set_listeners]. rewrite filter_twice.
        apply filter_ext_in. intros x _. rewrite negb_orb. reflexivity.
      * rewrite Ht. unfold beats at 2.
        destruct (heartbeat l) as [t |]; cbn [timers clearInterval].
        -- rewrite filter_twice. apply filter_ext_in. intros u _.
           rewrite negb_orb. rewrite (Nat.eqb_sym t u). reflexivity.
        -- reflexivity.
      * rewrite Hn. destruct (heartbeat l); reflexivity.
    + rewrite (deliver_live fails ev l st rt Hdead).
      specialize (IH st (mkRuntime (timers rt) (next_timer rt)
                                   (written rt ++ [(res l, CallFrame ev)]))).
      destruct (fold_left (deliver fails ev) ls _) as [st1 rt1].
      destruct IH as (Hw & Hl & Ht & Hn & H1 & H2 & H3 & H4 & H5).
      repeat split; try assumption.
      rewrite Hw. cbn [written List.map]. rewrite <- app_assoc. reflexivity.
Qed.

(** C7: in a broadcast, every registered subscriber whose sink accepts
    the write receives the event and stays registered, whatever happens
    on the other sinks; every subscriber whose sink throws is removed from
    the registry and its heartbeat interval is cleared. *)
Theorem broadcast_isolates_failures
    (fails : nat -> bool) (ev : entry) (st : state) (rt : runtime) :
  let '(st1, rt1) := broadcast fails ev (st, rt) in
  written rt1 =
    (written rt ++ List.map (fun l => (res l, CallFrame ev))
                            (List.filter (fun l => negb (fails (res l)))
                                         (listeners st)))%list /\
  listeners st1 =
    List.filter (fun l => negb (fails (res l))) (listeners st) /\
  (forall l, In l (listeners st) -> fails (res l) = false ->
     In (res l, CallFrame ev) (written rt1) /\ In l (listeners st1)) /\
  (forall l, In l (listeners st) -> fails (res l) = true ->
     ~ In l (listeners st1) /\
     forall t, heartbeat l = Some t -> ~ In t (timers rt1)).
Proof.
  unfold broadcast. cbn [fst].
  pose proof (deliver_loop fails ev (listeners st) st rt) as Hloop.
  destruct (fold_left (deliver fails ev) (listeners st) (st, rt)) as [st1 rt1].
  destruct Hloop as (Hw & Hl & Ht & _). unfold dead in Hw.
  assert (Hreg : listeners st1 =
                 List.filter (fun l => negb (fails (res l))) (listeners st)).
  { rewrite Hl. apply filter_ext_in. intros x Hx. f_equal.
    destruct (fails (res x)) eqn:Hdead.
    - apply existsb_exists. exists x. split.
      + apply filter_In. split; [exact Hx | exact Hdead].
      + apply listener_eqb_eq. reflexivity.
    - destruct (existsb _ _) eqn:Hex; [| reflexivity].
      apply existsb_exists in Hex. destruct Hex as (y & Hy & Heq).
      apply listener_eqb_eq in Heq. subst y.
      apply filter_In in Hy. unfold dead in Hy. destruct Hy as [_ Hy]. congruence. }
  split; [exact Hw |]. split; [exact Hreg |]. split.
  - intros l Hin Hlive. split.
    + rewrite Hw. apply in_or_app. right.
      apply (in_map (fun l => (res l, CallFrame ev))).
      apply filter_In. split; [exact Hin | cbv beta; rewrite Hlive; reflexivity].
    + rewrite Hreg. apply filter_In. split; [exact Hin | cbv beta; rewrite Hlive; reflexivity].
  - intros l Hin Hdead. split.
    + rewrite Hreg. intros Hl'. apply filter_In in Hl'.
      destruct Hl' as [_ Hf]. cbv beta in Hf. rewrite Hdead in Hf. discriminate.
    + intros t Hbeat Ht'. rewrite Ht in Ht'. apply filter_In in Ht'.
      destruct Ht' as [_ Hno]. apply negb_true_iff in Hno.
      assert (Hyes : existsb (beats t) (List.filter (dead fails) (listeners st)) = true).
      { apply existsb_exists. exists l. split.
        - apply filter_In. split; [exact Hin | exact Hdead].
        - unfold beats. rewrite Hbeat. apply Nat.eqb_refl. }
      congruence.
Qed.

Example broadcast_second_sink_dead :
  let l1 := mkListener 1 (Some 10%nat) in
  let l2 := mkListener 2 (Some 11%nat) in
  let l3 := mkListener 3 (Some 12%nat) in
  broadcast (fun sink => Nat.eqb sink 2) (sample_entry 5)
            (set_listeners [l1; l2; l3] initial_state,
             mkRuntime [10; 11; 12]%nat 13 []) =
  (set_listeners [l1; l3] initial_state,
   mkRuntime [10; 12]%nat 13
             [(1%nat, CallFrame (sample_entry 5)); (3%nat, CallFrame (sample_entry 5))]).
Proof. reflexivity. Qed.

(** ** Ingestion and the last-known call *)

Lemma same_ring_refl (st : state) : same_ring st st.
Proof. repeat split. Qed.


Lemma load_rows_fields (rs : list row) :
  forall st,
    callHistory (fold_left load_row rs st) =
      (callHistory st ++ List.map entry_of_row rs)%list /\
    lastCall (fold_left load_row rs st) = lastCall st /\
    readyPromise (fold_left load_row rs st) = readyPromise st /\
    listeners (fold_left load_row rs st) = listeners st.
Proof.
  induction rs as [| r rs IH]; intros st; cbn [fold_left List.map].
  - rewrite app_nil_r. repeat split.
  - destruct (IH (load_row st r)) as (Hh & Hl & Hp & Hs).
    rewrite Hh, Hl, Hp, Hs. cbn. rewrite <- app_assoc. repeat split.
Qed.

Lemma authorize_same_ring (secret : option string) (req : request)
                          (st st2 : state) :
  authorize secret req st = Some st2 ->
  same_ring st st2 /\ listeners st2 = listeners st /\ sequence st2 = sequence st.
Proof.
  unfold authorize. intros Ha.
  destruct (or_null secret).
  - destruct (secret_matches _ _); inversion Ha; subst. repeat split.
  - destruct (secretWarningLogged st); inversion Ha; subst; repeat split.
Qed.

Lemma cleanupListener_same_ring (l : listener) (st : state) (rt : runtime) :
  same_ring st (fst (cleanupListener l (st, rt))).
Proof. unfold cleanupListener. repeat split. Qed.

Lemma broadcast_same_ring (fails : nat -> bool) (ev : entry)
                          (st : state) (rt : runtime) :
  same_ring st (fst (broadcast fails ev (st, rt))).
Proof.
  unfold broadcast. cbn [fst].
  pose proof (deliver_loop fails ev (listeners st) st rt) as Hloop.
  destruct (fold_left (deliver fails ev) (listeners st) (st, rt)) as [st1 rt1].
  destruct Hloop as (_ & _ & _ & _ & Hl & Hh & _ & Hp & _).
  repeat split; assumption.
Qed.

Lemma heartbeatTick_same_ring (fails : nat -> bool) (l : listener)
                              (st : state) (rt : runtime) :
  same_ring st (fst (heartbeatTick fails l (st, rt))).
Proof.
  unfold heartbeatTick. cbn [snd fst].
  destruct (write fails (res l) KeepAliveFrame rt).
  - apply same_ring_refl.
  - apply cleanupListener_same_ring.
Qed.

Lemma add_listener_same_ring (l : listener) (st : state) :
  same_ring st (add_listener l st).
Proof.
  unfold add_listener. destruct (existsb _ _); repeat split.
Qed.

Section Ingestion.

Context {DB : Type} `{Store DB}.

Implicit Types (st : state) (rt : runtime) (db : DB).

(* What the bootstrap leaves: the ring holds the rows, in order, and the
   last-known call is its front, or what it was when there is no row. *)
Lemma prepare_spec st db :
  match prepare st db with
  | (Ok _, st1, db1) =>
      exists created dbq rep,
        db_query db CreateTableIfNotExists = (Ok created, dbq) /\
        db_query dbq (SelectRecent MAX_HISTORY) = (Ok rep, db1) /\
        callHistory st1 = List.map entry_of_row (rows_or_nil rep) /\
        lastCall st1 = match rows_or_nil rep with
                       | r :: _ => Some (entry_of_row r)
                       | [] => lastCall st
                       end /\
        readyPromise st1 = readyPromise st /\
        listeners st1 = listeners st
  | (Throw _, st1, _) => st1 = st
  end.
Proof.
  unfold prepare.
  destruct (db_query db CreateTableIfNotExists) as [[created | e] db1];
    [| reflexivity].
  destruct (db_query db1 (SelectRecent MAX_HISTORY)) as [[rep | e] db2] eqn:Hq;
    [| reflexivity].
  exists created, db1, rep. split; [reflexivity |]. split; [exact Hq |].
  destruct (load_rows_fields (rows_or_nil rep) (set_callHistory [] st))
    as (Hh & Hl & Hp & Hs).
  cbn [callHistory set_callHistory lastCall readyPromise listeners app]
    in Hh, Hl, Hp, Hs.
  rewrite Hh. destruct (rows_or_nil rep) as [| r rs]; cbn [List.map].
  - rewrite Hh. repeat split; assumption.
  - cbn. repeat split; assumption.
Qed.


(* The two outcomes of the try block around the INSERT. *)
Lemma persist_spec (fails : nat -> bool) (now : Z) (f : call_fields) st rt db :
  match persist fails now f (st, rt, db) with
  | (r, (st1, rt1, db1)) =>
      (exists e,
         db_query db (InsertCall (insert_of now f)) = (Throw e, db1) /\
         r = Json 500 (ErrorBody "server error") /\ st1 = st /\ rt1 = rt) \/
      (exists rep ev tail,
         db_query db (InsertCall (insert_of now f)) = (Ok rep, db1) /\
         r = Json 200 SuccessBody /\
         lastCall st1 = Some ev /\ callHistory st1 = ev :: tail /\
         readyPromise st1 = readyPromise st)
  end.
Proof.
  unfold persist.
  destruct (db_query db (InsertCall (insert_of now f))) as [[rep | e] db1];
    [| left; exists e; repeat split].
  destruct (match insertId rep with
            | Some n => if n =? 0 then (sequence st + 1, sequence st + 1)
                        else (n, sequence st)
            | None => (sequence st + 1, sequence st + 1)
            end) as [id seq1].
  set (st1 := set_sequence _ st).
  set (ev := entry_of (Str.of_Z id) now f).
  pose proof (broadcast_same_ring fails ev
                (set_lastCall (Some ev) (storeInHistory ev st1)) rt) as Hb.
  destruct (broadcast fails ev _) as [st4 rt4]. cbn [fst] in Hb.
  destruct Hb as (Hh & Hl & Hp).
  destruct (storeInHistory_head ev st1) as [tail Htail].
  destruct (storeInHistory_fields ev st1) as (_ & _ & _ & Hp1).
  right. exists rep, ev, tail. split; [reflexivity |]. split; [reflexivity |].
  rewrite Hl, Hh, Hp. cbn [lastCall callHistory readyPromise set_lastCall].
  rewrite Htail, Hp1. repeat split.
Qed.









(** C5: when the INSERT of an ingested event is rejected by the store,
    the endpoint answers 500 'server error'; the History Ring, the
    last-known call, the subscriber registry and the id counter are
    what they were after initialisation, and nothing is written to any
    subscriber (the runtime is unchanged). *)
Theorem insert_failure_is_invisible
    (secret : option string) (fails : nat -> bool) (now : Z) (req : request)
    st rt db st1 db1 st2 (f : call_fields) (e : error) db2 :
  ensurePersistenceReady st db = (Ok tt, st1, db1) ->
  authorize secret req st1 = Some st2 ->
  normalize (body req) = Ok (Some f) ->
  db_query db1 (InsertCall (insert_of now f)) = (Throw e, db2) ->
  post secret fails now req (st, rt, db) =
    (Json 500 (ErrorBody "server error"), (st2, rt, db2)) /\
  callHistory st2 = callHistory st1 /\
  lastCall st2 = lastCall st1 /\
  listeners st2 = listeners st1 /\
  sequence st2 = sequence st1.
Proof.
  intros Hready Hauth Hnorm Hinsert.
  destruct (authorize_same_ring _ _ _ _ Hauth) as ((Hh & Hl & _) & Hs & Hq).
  split; [| repeat split; assumption].
  unfold post. rewrite Hready, Hauth, Hnorm.
  unfold persist. rewrite Hinsert. reflexivity.
Qed.


End Ingestion.

Lemma insert_failure_is_invisible_witness :
  let req := mkRequest None (JObj [("phone", JStr "+40 712 345 678")])
                       (JObj []) false in
  let st2 := mkState [] None 0 true [] (Some (Ok tt)) in
  post None (fun _ => false) 0 req
       (initial_state, initial_runtime, MemStore.mk [] 1 [false; false; true] 0) =
    (Json 500 (ErrorBody "server error"),
     (st2, initial_runtime, MemStore.mk [] 1 [] 3)) /\
  callHistory st2 = [] /\ lastCall st2 = None /\
  listeners st2 = [] /\ sequence st2 = 0.
Proof.
  intros req st2.
  eapply (insert_failure_is_invisible None (fun _ => false) 0 req
            initial_state initial_runtime
            (MemStore.mk [] 1 [false; false; true] 0)
            (mkState [] None 0 false [] (Some (Ok tt)))
            (MemStore.mk [] 1 [true] 2) st2 _ (StoreError 2002)
            (MemStore.mk [] 1 [] 3));
    reflexivity.
Defined.

Example ingest_then_last :
  let req := mkRequest None
               (JObj [("phone", JStr "+40712345678"); ("status", JStr "Ringing")])
               (JObj []) false in
  let '(rs, (st, rt, db)) :=
    run None (initial_state, initial_runtime, MemStore.empty)
        [GetStream (fun _ => false) true 1%nat;
         PostCall (fun _ => false) 1700000000 req;
         GetLast true] in
  rs = [Some StreamOpen; Some (Json 200 SuccessBody);
        Some (Json 200 (CallBody (lastCall st)))] /\
  List.map e_phone (callHistory st) = ["+40712345678"] /\
  List.map e_status (callHistory st) = [Some "ringing"] /\
  List.map e_id (callHistory st) = ["1"] /\
  written rt = [(1%nat, RetryFrame);
                (1%nat, CallFrame (hd (sample_entry 0) (callHistory st)))] /\
  MemStore.calls db = 3%nat.
Proof. repeat split; reflexivity. Qed.

Example invalid_secret :
  fst (post (Some "abc") (fun _ => false) 0
            (mkRequest None (JObj [("phone", JStr "0712")]) (JObj []) false)
            (initial_state, initial_runtime, MemStore.empty)) =
    Json 401 (ErrorBody "invalid secret") /\
  fst (post (Some "abc") (fun _ => false) 0
            (mkRequest (Some "abc") (JObj [("phone", JStr "0712")]) (JObj []) false)
            (initial_state, initial_runtime, MemStore.empty)) =
    Json 200 SuccessBody.
Proof. split; reflexivity. Qed.

(** ** The bound of the ring along every run

    [history_ring_keeps_newest] starts from a ring of at most 500
    entries.  That is the case in every state the router reaches, as soon
    as the store returns no more rows than the LIMIT it is given. *)

Section BoundedRing.

Context {DB : Type} `{Store DB}.

Hypothesis limit_honoured :
  forall (db db1 : DB) (rep : reply),
    db_query db (SelectRecent MAX_HISTORY) = (Ok rep, db1) ->
    Z.of_nat (List.length (rows_or_nil rep)) <= MAX_HISTORY.

Lemma ensure_bounded (st : state) (db : DB) :
  bounded st -> bounded (snd (fst (ensurePersistenceReady st db))).
Proof.
  intros Hb. unfold ensurePersistenceReady.
  destruct (readyPromise st); [exact Hb |].
  pose proof (prepare_spec st db) as Hprep.
  destruct (prepare st db) as [[[[] | e] st1] db1]; cbn [fst snd].
  - destruct Hprep as (created & dbq & rep & _ & Hq & Hh & _).
    unfold bounded. cbn [callHistory set_readyPromise].
    rewrite Hh, length_map. exact (limit_honoured _ _ _ Hq).
  - subst st1. exact Hb.
Qed.

Lemma storeInHistory_bounded (e : entry) (st : state) :
  bounded st -> bounded (storeInHistory e st).
Proof.
  intros Hb. exact (proj1 (proj1 (history_ring_bounded_aux st Hb) e)).
Qed.

Lemma persist_bounded (fails : nat -> bool) (now : Z) (f : call_fields)
                      (st : state) (rt : runtime) (db : DB) :
  bounded st -> bounded (state_of (snd (persist fails now f (st, rt, db)))).
Proof.
  intros Hb. unfold persist, state_of.
  destruct (db_query db (InsertCall (insert_of now f))) as [[rep | e] db1];
    [| exact Hb].
  destruct (match insertId rep with
            | Some n => if n =? 0 then (sequence st + 1, sequence st + 1)
                        else (n, sequence st)
            | None => (sequence st + 1, sequence st + 1)
            end) as [id seq1].
  set (st1 := set_sequence _ st).
  set (ev := entry_of (Str.of_Z id) now f).
  pose proof (broadcast_same_ring fails ev
                (set_lastCall (Some ev) (storeInHistory ev st1)) rt) as Hs.
  destruct (broadcast fails ev _) as [st4 rt4]. cbn [fst snd] in *.
  destruct Hs as (Hh & _). unfold bounded. rewrite Hh.
  exact (storeInHistory_bounded ev st1 Hb).
Qed.

Lemma step_bounded (secret : option string) (w : @world DB) (t : turn) :
  bounded (state_of w) -> bounded (state_of (snd (step secret w t))).
Proof.
  destruct w as [[st rt] db]. unfold state_of at 1. cbn [fst].
  intros Hb.
  pose proof (ensure_bounded st db Hb) as Hens.
  destruct t as [fails now req | fails a sink | a | a q | l | fails l];
    cbn [step].
  - unfold post.
    destruct (ensurePersistenceReady st db) as [[ready st1] db1].
    cbn [fst snd] in Hens.
    destruct ready as [[] | e]; [| exact Hens].
    destruct (authorize secret req st1) as [st2 |] eqn:Hauth; [| exact Hens].
    destruct (authorize_same_ring _ _ _ _ Hauth) as ((Hh & _) & _).
    assert (Hb2 : bounded st2) by (unfold bounded; rewrite Hh; exact Hens).
    destruct (normalize (body req)) as [[f |] | e]; try exact Hb2.
    pose proof (persist_bounded fails now f st2 rt db1 Hb2) as Hp.
    destruct (persist fails now f (st2, rt, db1)) as [r w1]. exact Hp.
  - unfold getStream. destruct a; cbn [negb]; [| exact Hb].
    destruct (ensurePersistenceReady st db) as [[ready st1] db1].
    cbn [fst snd] in Hens.
    destruct ready as [[] | e]; [| exact Hens].
    destruct (write fails sink RetryFrame rt) as [rt1 |]; [| exact Hens].
    destruct (setInterval rt1) as [t rt2].
    destruct (add_listener_same_ring (mkListener sink (Some t)) st1) as (Hh & _).
    assert (Hb2 : bounded (add_listener (mkListener sink (Some t)) st1))
      by (unfold bounded; rewrite Hh; exact Hens).
    destruct (lastCall _); [destruct (write _ _ _ _) |]; exact Hb2.
  - unfold getLast. destruct a; cbn [negb]; [| exact Hb].
    destruct (ensurePersistenceReady st db) as [[ready st1] db1].
    cbn [fst snd] in Hens. destruct ready as [[] | e]; exact Hens.
  - unfold getLog. destruct a; cbn [negb]; [| exact Hb].
    destruct (ensurePersistenceReady st db) as [[ready st1] db1].
    cbn [fst snd] in Hens. destruct ready as [[] | e]; [| exact Hens].
    destruct (logLimit _); [| exact Hens].
    destruct (db_query db1 _) as [[rep | e] db2]; exact Hens.
  - pose proof (cleanupListener_same_ring l st rt) as (Hh & _).
    destruct (cleanupListener l (st, rt)) as [st1 rt1]. cbn [fst snd] in *.
    unfold state_of, bounded. cbn [fst]. rewrite Hh. exact Hb.
  - pose proof (heartbeatTick_same_ring fails l st rt) as (Hh & _).
    destruct (heartbeatTick fails l (st, rt)) as [st1 rt1]. cbn [fst snd] in *.
    unfold state_of, bounded. cbn [fst]. rewrite Hh. exact Hb.
Qed.

Lemma run_bounded (secret : option string) (ts : list turn) :
  forall w : @world DB,
    bounded (state_of w) -> bounded (state_of (snd (run secret w ts))).
Proof.
  induction ts as [| t ts IH]; intros w Hb; cbn [run]; [exact Hb |].
  pose proof (step_bounded secret w t Hb) as Hstep.
  destruct (step secret w t) as [r w1]. cbn [snd] in Hstep.
  specialize (IH w1 Hstep).
  destruct (run secret w1 ts) as [rs w2]. exact IH.
Qed.

Lemma ring_bounded_in_every_run
    (secret : option string) (db0 : DB) (ts : list turn) :
  bounded (state_of (snd (run secret (initial_state, initial_runtime, db0) ts))).
Proof.
  apply run_bounded. unfold bounded, state_of, MAX_HISTORY. simpl. lia.
Qed.

End BoundedRing.

(* The store double honours LIMIT, so its ring stays within the bound. *)
Lemma memstore_select (db db1 : MemStore.t) (n : Z) (rep : reply) :
  db_query db (SelectRecent n) = (Ok rep, db1) ->
  rows_or_nil rep = firstn (Z.to_nat n) (MemStore.table db).
Proof.
  cbn [db_query MemStore.store]. unfold MemStore.query.
  destruct (hd false (MemStore.outages db)); [discriminate |].
  intros Hq. injection Hq as Hrep _. rewrite <- Hrep. reflexivity.
Qed.

Lemma memstore_honours_limit (db db1 : MemStore.t) (rep : reply) :
  db_query db (SelectRecent MAX_HISTORY) = (Ok rep, db1) ->
  Z.of_nat (List.length (rows_or_nil rep)) <= MAX_HISTORY.
Proof.
  intros Hq. rewrite (memstore_select _ _ _ _ Hq).
  pose proof (firstn_le_length (Z.to_nat MAX_HISTORY) (MemStore.table db)).
  assert (0 <= MAX_HISTORY) by (unfold MAX_HISTORY; lia).
  lia.
Qed.

Corollary memstore_ring_bounded
    (secret : option string) (db0 : MemStore.t) (ts : list turn) :
  bounded (state_of (snd (run secret (initial_state, initial_runtime, db0) ts))).
Proof. exact (ring_bounded_in_every_run memstore_honours_limit secret db0 ts). Qed.

(** * Further properties *)

(** ** The search pattern *)

Lemma escapeLike_cons (c : ascii) (r : string) :
  escapeLike (String c r) =
  if like_special c then String "\" (String c (escapeLike r))
  else String c (escapeLike r).
Proof. reflexivity. Qed.

Lemma like_tokens_escaped (c : ascii) (r : string) :
  like_tokens (String "\" (String c r)) = LikeChar c :: like_tokens r.
Proof. reflexivity. Qed.

Lemma like_tokens_plain (c : ascii) (r : string) :
  like_special c = false ->
  like_tokens (String c r) = LikeChar c :: like_tokens r.
Proof.
  unfold like_special. rewrite !orb_false_iff. intros [[H1 H2] H3].
  cbn [like_tokens]. rewrite H1, H2, H3. reflexivity.
Qed.

(* An escaped term reads as its own characters, whatever follows it. *)
Lemma like_tokens_escapeLike (s rest : string) :
  like_tokens (escapeLike s ++ rest) =
  (List.map LikeChar (list_ascii_of_string s) ++ like_tokens rest)%list.
Proof.
  induction s as [| c r IH]; [reflexivity |].
  rewrite escapeLike_cons. cbn [list_ascii_of_string List.map app].
  destruct (like_special c) eqn:Hc; cbn [append].
  - rewrite like_tokens_escaped, IH. reflexivity.
  - rewrite (like_tokens_plain c _ Hc), IH. reflexivity.
Qed.

Example logLike_percent :
  logLike (JStr " 50%_a\b ") = Some "%50\%\_a\\b%".
Proof. reflexivity. Qed.

(** X1: the pattern built for a search term reads, under ESCAPE '\', as
    "any string, then the trimmed term character by character, then any
    string": no character typed by the user acts as a wildcard or as an
    escape. *)
Theorem search_pattern_is_literal (search : jsval) (p : string) :
  logLike search = Some p ->
  exists raw,
    search = JStr raw /\ Str.trim raw <> "" /\
    like_tokens p =
      LikeAnyString ::
      (List.map LikeChar (list_ascii_of_string (Str.trim raw)) ++ [LikeAnyString])%list.
Proof.
  unfold logLike. destruct search as [| | b | n | raw | l | o];
    cbn [if_string Str.is_empty]; try discriminate.
  destruct (Str.is_empty (Str.trim raw)) eqn:He; [discriminate |].
  intros Hp. injection Hp as <-. exists raw. split; [reflexivity |]. split.
  - intros Heq. rewrite Heq in He. discriminate.
  - change ("%" ++ escapeLike (Str.trim raw) ++ "%")
      with (String "%" (escapeLike (Str.trim raw) ++ "%")).
    cbn [like_tokens]. change (Ascii.eqb "%" "\") with false.
    change (Ascii.eqb "%" "%") with true. cbv iota.
    rewrite like_tokens_escapeLike. reflexivity.
Qed.

Lemma search_pattern_is_literal_witness :
  exists raw,
    JStr " 100%_" = JStr raw /\ Str.trim raw <> "" /\
    like_tokens "%100\%\_%" =
      LikeAnyString ::
      (List.map LikeChar (list_ascii_of_string (Str.trim raw)) ++ [LikeAnyString])%list.
Proof. apply (search_pattern_is_literal (JStr " 100%_") "%100\%\_%"). reflexivity. Defined.

(** X2: escapeLike adds exactly one character per backslash, percent and
    underscore of its input, so it leaves a term unchanged exactly when
    the term has none of them. *)
Theorem escapeLike_grows_by_specials (s : string) :
  String.length (escapeLike s) = (String.length s + count_special s)%nat /\
  (escapeLike s = s <-> count_special s = 0%nat).
Proof.
  assert (Hlen : forall t, String.length (escapeLike t) =
                           (String.length t + count_special t)%nat).
  { induction t as [| c r IH]; [reflexivity |].
    rewrite escapeLike_cons. cbn [count_special String.length].
    destruct (like_special c); cbn [String.length]; rewrite IH; lia. }
  split; [apply Hlen |]. split.
  - intros Heq. pose proof (Hlen s) as Hl. rewrite Heq in Hl. lia.
  - induction s as [| c r IH]; [reflexivity |].
    rewrite escapeLike_cons. cbn [count_special].
    destruct (like_special c); [intros; lia |].
    intros Hz. f_equal. apply IH. lia.
Qed.

(** ** normalizeStatus, again *)

Lemma normalizeStatus_label (v : jsval) (r : string) :
  normalizeStatus v = Ok r -> In r STATUS_LABELS.
Proof.
  unfold normalizeStatus. destruct (truthy v); cbn [negb].
  - destruct (js_String v) as [s | e]; cbn [bind]; [| discriminate].
    destruct (STATUS_LABELS_has _) eqn:Hl.
    + intros Hr. injection Hr as <-. apply has_label, Hl.
    + destruct (_ || _); intros Hr; injection Hr as <-; simpl; tauto.
  - intros Hr. injection Hr as <-. simpl. tauto.
Qed.

(** X3: the labels are fixed points: whatever normalizeStatus returns is
    returned again when it is given back as a string. *)
Theorem normalizeStatus_fixed_point (v : jsval) (r : string) :
  normalizeStatus v = Ok r -> normalizeStatus (JStr r) = Ok r.
Proof.
  intros Hr. apply normalizeStatus_label in Hr. simpl in Hr.
  destruct Hr as [<- | [<- | [<- | [<- | []]]]]; reflexivity.
Qed.

Lemma normalizeStatus_fixed_point_witness :
  normalizeStatus (JStr "missed") = Ok "missed".
Proof. apply (normalizeStatus_fixed_point (JStr " NoAnswer") "missed"). reflexivity. Defined.

Lemma lower_char_space (c : ascii) :
  Str.is_space (Str.lower_char c) = Str.is_space c.
Proof. destruct c as [[] [] [] [] [] [] [] []]; reflexivity. Qed.

Lemma lower_char_idem (c : ascii) :
  Str.lower_char (Str.lower_char c) = Str.lower_char c.
Proof. destruct c as [[] [] [] [] [] [] [] []]; reflexivity. Qed.

Lemma toLowerCase_idem (s : string) :
  Str.toLowerCase (Str.toLowerCase s) = Str.toLowerCase s.
Proof.
  unfold Str.toLowerCase. induction s as [| c r IH]; [reflexivity |].
  cbn [Str.map]. rewrite lower_char_idem, IH. reflexivity.
Qed.

Lemma is_empty_map (f : ascii -> ascii) (s : string) :
  Str.is_empty (Str.map f s) = Str.is_empty s.
Proof. destruct s; reflexivity. Qed.

Lemma trimStart_lower (s : string) :
  Str.trimStart (Str.toLowerCase s) = Str.toLowerCase (Str.trimStart s).
Proof.
  unfold Str.toLowerCase. induction s as [| c r IH]; [reflexivity |].
  cbn [Str.map Str.trimStart]. rewrite lower_char_space.
  destruct (Str.is_space c); [exact IH | reflexivity].
Qed.

Lemma trimEnd_lower (s : string) :
  Str.trimEnd (Str.toLowerCase s) = Str.toLowerCase (Str.trimEnd s).
Proof.
  unfold Str.toLowerCase. induction s as [| c r IH]; [reflexivity |].
  cbn [Str.map Str.trimEnd]. rewrite lower_char_space, IH, is_empty_map.
  destruct (Str.is_space c && Str.is_empty (Str.trimEnd r)); reflexivity.
Qed.

Lemma trim_lower (s : string) :
  Str.trim (Str.toLowerCase s) = Str.toLowerCase (Str.trim s).
Proof. unfold Str.trim. rewrite trimStart_lower, trimEnd_lower. reflexivity. Qed.

Lemma trimStart_head_ok (s : string) : head_ok (Str.trimStart s) = true.
Proof.
  induction s as [| c r IH]; [reflexivity |]. cbn [Str.trimStart].
  destruct (Str.is_space c) eqn:Hc; [exact IH |]. cbn [head_ok]. rewrite Hc. reflexivity.
Qed.

Lemma trimStart_id (s : string) : head_ok s = true -> Str.trimStart s = s.
Proof.
  destruct s as [| c r]; [reflexivity |]. cbn [head_ok Str.trimStart].
  intros Hc. apply negb_true_iff in Hc. rewrite Hc. reflexivity.
Qed.

Lemma trimEnd_head_ok (s : string) :
  head_ok s = true -> head_ok (Str.trimEnd s) = true.
Proof.
  destruct s as [| c r]; [reflexivity |]. cbn [head_ok Str.trimEnd].
  intros Hc. pose proof Hc as Hc'. apply negb_true_iff in Hc'. rewrite Hc'.
  cbn [andb head_ok]. exact Hc.
Qed.

Lemma trimEnd_idem (s : string) : Str.trimEnd (Str.trimEnd s) = Str.trimEnd s.
Proof.
  induction s as [| c r IH]; [reflexivity |]. cbn [Str.trimEnd].
  destruct (Str.is_space c && Str.is_empty (Str.trimEnd r)) eqn:Hc; [reflexivity |].
  cbn [Str.trimEnd]. rewrite IH, Hc. reflexivity.
Qed.

Lemma trim_idem (s : string) : Str.trim (Str.trim s) = Str.trim s.
Proof.
  unfold Str.trim.
  rewrite (trimStart_id (Str.trimEnd (Str.trimStart s)))
    by (apply trimEnd_head_ok, trimStart_head_ok).
  apply trimEnd_idem.
Qed.

(** X4: normalizeStatus does not see letter case or surrounding white
    space: a string and its trimmed, lower-cased form get the same
    answer. *)
Theorem normalizeStatus_case_and_space (s : string) :
  normalizeStatus (JStr s) =
  normalizeStatus (JStr (Str.toLowerCase (Str.trim s))).
Proof.
  assert (Hstable : Str.toLowerCase (Str.trim (Str.toLowerCase (Str.trim s))) =
                    Str.toLowerCase (Str.trim s))
    by (rewrite trim_lower, toLowerCase_idem, trim_idem; reflexivity).
  unfold normalizeStatus. cbn [truthy js_String bind].
  destruct s as [| c r]; [reflexivity |]. cbn [Str.is_empty negb].
  rewrite Hstable.
  destruct (Str.toLowerCase (Str.trim (String c r))) as [| d t]; reflexivity.
Qed.

(** ** sanitizePhone, again *)

Lemma digit_not_space (c : ascii) :
  Str.is_digit c = true -> Str.is_space c = false.
Proof.
  intros Hd. destruct (Str.is_space c) eqn:Hs; [| reflexivity].
  rewrite (space_not_digit c Hs) in Hd. discriminate.
Qed.

Lemma digits_no_space (s : string) :
  Str.forallb Str.is_digit s = true -> no_space s = true.
Proof.
  unfold no_space. induction s as [| c r IH]; [reflexivity |].
  cbn [Str.forallb]. rewrite !andb_true_iff. intros [Hc Hr].
  rewrite (digit_not_space c Hc). split; [reflexivity | apply IH, Hr].
Qed.

Lemma trimEnd_no_space (s : string) : no_space s = true -> Str.trimEnd s = s.
Proof.
  unfold no_space. induction s as [| c r IH]; [reflexivity |].
  cbn [Str.forallb Str.trimEnd]. rewrite andb_true_iff. intros [Hc Hr].
  apply negb_true_iff in Hc. rewrite Hc, (IH Hr). reflexivity.
Qed.

Lemma trim_no_space (s : string) : no_space s = true -> Str.trim s = s.
Proof.
  intros Hs. unfold Str.trim. rewrite trimStart_id.
  - apply trimEnd_no_space, Hs.
  - destruct s as [| c r]; [reflexivity |]. unfold no_space in Hs.
    cbn [Str.forallb] in Hs. apply andb_true_iff in Hs. apply Hs.
Qed.

Lemma filter_id (p : ascii -> bool) (s : string) :
  Str.forallb p s = true -> Str.filter p s = s.
Proof.
  induction s as [| c r IH]; [reflexivity |].
  cbn [Str.forallb Str.filter]. rewrite andb_true_iff. intros [Hc Hr].
  rewrite Hc, (IH Hr). reflexivity.
Qed.

(* The two shapes of a result of sanitizePhone. *)
Lemma sanitizePhone_shape (v : jsval) (p : phone_parts) :
  sanitizePhone v = Ok p ->
  p = no_phone \/
  (digits p <> "" /\ Str.forallb Str.is_digit (digits p) = true /\
   (String.length (digits p) <= 20)%nat /\
   (display p = digits p \/ display p = String "+" (digits p))).
Proof.
  unfold sanitizePhone. destruct (nullish v).
  { intros Hp. injection Hp as <-. left. reflexivity. }
  destruct (js_String v) as [s | e]; cbn [bind]; [| discriminate].
  destruct (Str.is_empty (Str.trim s)).
  { intros Hp. injection Hp as <-. left. reflexivity. }
  destruct (Str.is_empty (Str.filter Str.is_digit (Str.trim s))) eqn:Hd.
  { intros Hp. injection Hp as <-. left. reflexivity. }
  pose proof (filter_all Str.is_digit (Str.trim s)) as Hall.
  set (d := Str.filter Str.is_digit (Str.trim s)) in *.
  intros Hp. injection Hp as <-. right. cbn [digits display].
  destruct (20 <? Str.len d) eqn:Hlen.
  - split.
    { unfold Str.slice0. destruct d; [discriminate | discriminate]. }
    split; [apply forallb_substring0, Hall |].
    split; [apply length_substring0 |].
    destruct (Str.startsWith (Str.trim s) "+"); [right | left]; reflexivity.
  - apply Z.ltb_ge in Hlen. unfold Str.len in Hlen.
    split; [intros Heq; rewrite Heq in Hd; discriminate |].
    split; [exact Hall |]. split; [lia |].
    destruct (Str.startsWith (Str.trim s) "+"); [right | left]; reflexivity.
Qed.

(* A string of 1 to 20 digits, with or without a leading plus, is kept. *)
Lemma sanitizePhone_canonical (d : string) :
  d <> "" -> Str.forallb Str.is_digit d = true ->
  (String.length d <= 20)%nat ->
  sanitizePhone (JStr d) = Ok (mkPhone d d) /\
  sanitizePhone (JStr (String "+" d)) = Ok (mkPhone (String "+" d) d).
Proof.
  intros Hne Hall Hlen.
  pose proof (digits_no_space d Hall) as Hns.
  assert (Hns' : no_space (String "+" d) = true) by exact Hns.
  assert (Hshort : (20 <? Str.len d) = false)
    by (apply Z.ltb_ge; unfold Str.len; lia).
  unfold sanitizePhone. cbn [nullish js_String bind].
  rewrite (trim_no_space d Hns), (trim_no_space _ Hns').
  change (Str.filter Str.is_digit (String "+" d)) with (Str.filter Str.is_digit d).
  rewrite (filter_id _ d Hall), Hshort.
  destruct d as [| c r]; [congruence |]. cbn [Str.is_empty Str.startsWith].
  split; [| reflexivity].
  cbn [Str.forallb] in Hall. apply andb_true_iff in Hall. destruct Hall as [Hc _].
  destruct (Ascii.eqb c "+") eqn:Hplus; [| reflexivity].
  apply Ascii.eqb_eq in Hplus. subst c. discriminate.
Qed.

(** X5: sanitizePhone is idempotent: the display form it returns is
    accepted unchanged, with the same digits, when it is sanitized
    again. *)
Theorem sanitizePhone_idempotent (v : jsval) (p : phone_parts) :
  sanitizePhone v = Ok p -> sanitizePhone (JStr (display p)) = Ok p.
Proof.
  intros Hp. destruct (sanitizePhone_shape v p Hp) as [-> | (Hne & Hall & Hlen & Hd)].
  - reflexivity.
  - destruct (sanitizePhone_canonical (digits p) Hne Hall Hlen) as [Hplain Hplus].
    destruct p as [disp dig]. cbn [display digits] in *.
    destruct Hd as [-> | ->]; assumption.
Qed.

Lemma sanitizePhone_idempotent_witness :
  sanitizePhone (JStr "+40712345678") = Ok (mkPhone "+40712345678" "40712345678").
Proof.
  apply (sanitizePhone_idempotent (JStr " +40 (712) 345-678 ")
                                  (mkPhone "+40712345678" "40712345678")).
  reflexivity.
Defined.



Lemma phoneInput_not_nullish (b : jsval) : nullish (phoneInput b) = false.
Proof.
  unfold phoneInput, coalesce.
  destruct (prop b "phone"); cbn; try reflexivity;
    destruct (prop b "caller"); cbn; try reflexivity;
    destruct (prop b "number"); reflexivity.
Qed.

(** ** What an ingestion request turns into *)

Lemma or_null_not_blank (s : option string) : or_null s <> Some "".
Proof.
  destruct s as [t |]; cbn [or_null]; [| discriminate].
  destruct t; cbn [Str.is_empty]; discriminate.
Qed.

Lemma or_null_trimmed (s : option string) (x : string) :
  (forall t, s = Some t -> Str.trim t = t) ->
  or_null s = Some x -> Str.trim x = x.
Proof.
  intros Ht. destruct s as [t |]; cbn [or_null]; [| discriminate].
  destruct (Str.is_empty t); [discriminate |].
  intros Hx. injection Hx as <-. apply Ht. reflexivity.
Qed.

Lemma trimmed_or_null_trimmed (v : jsval) (r : option string) (t : string) :
  trimmed_or_null v = Ok r -> r = Some t -> Str.trim t = t.
Proof.
  unfold trimmed_or_null. destruct (nullish v).
  - intros Hr. injection Hr as <-. discriminate.
  - destruct (js_String v) as [s | e]; cbn [bind]; [| discriminate].
    intros Hr. injection Hr as <-. intros Ht. injection Ht as <-. apply trim_idem.
Qed.

(* The fields that [normalize] hands to the INSERT. *)
Lemma normalize_fields (b : jsval) (f : call_fields) :
  normalize b = Ok (Some f) ->
  sanitizePhone (phoneInput b) = Ok (f_phone f) /\
  f_phone f <> no_phone /\
  trimmed_or_null (prop b "extension") = Ok (f_extension f) /\
  trimmed_or_null (prop b "source") = Ok (f_source f) /\
  normalizeStatus (prop b "status") = Ok (f_status f) /\
  f_note f = if_string (prop b "note") (fun s => Some (Str.trim s)) None /\
  callerName (f_meta f) =
    if_string (prop b "name") (fun s => or_null (Some (Str.trim s))) None /\
  personId (f_meta f) = coalesce (prop b "person_id") JNull.
Proof.
  unfold normalize.
  destruct (sanitizePhone (phoneInput b)) as [p | e]; cbn [bind]; [| discriminate].
  destruct (Str.is_empty (display p) && Str.is_empty (digits p)) eqn:Hempty;
    [discriminate |].
  destruct (trimmed_or_null (prop b "extension")) as [ext | e]; cbn [bind];
    [| discriminate].
  destruct (trimmed_or_null (prop b "source")) as [src | e]; cbn [bind];
    [| discriminate].
  destruct (normalizeStatus (prop b "status")) as [status | e]; cbn [bind];
    [| discriminate].
  intros Hf. injection Hf as <-. cbn. repeat split.
  intros ->. discriminate.
Qed.



(** X6: whatever the request holds, the values bound to the INSERT are
    well formed: digits is never null and is 1 to 20 decimal digits,
    phone is those digits with at most a leading "+", status is one of
    the four labels, and extension, source, note and caller name are
    either null or a non-empty string without surrounding white space;
    person_id is never undefined. *)
Theorem inserted_values_are_well_formed (b : jsval) (f : call_fields) (now : Z) :
  normalize b = Ok (Some f) ->
  let p := insert_of now f in
  (exists d, i_digits p = Some d /\ d <> "" /\
             Str.forallb Str.is_digit d = true /\
             (String.length d <= 20)%nat /\
             (i_phone p = d \/ i_phone p = String "+" d)) /\
  In (i_status p) STATUS_LABELS /\
  (forall x, In (Some x) [i_extension p; i_source p; i_note p; i_caller_name p] ->
             x <> "" /\ Str.trim x = x) /\
  i_person_id p <> JUndefined.
Proof.
  intros Hf. destruct (normalize_fields b f Hf)
    as (Hphone & Hsome & Hext & Hsrc & Hstatus & Hnote & Hname & Hpid).
  cbv zeta. unfold insert_of.
  cbn [i_digits i_phone i_status i_extension i_source i_note i_caller_name i_person_id].
  split; [| split; [| split]].
  - destruct (sanitizePhone_shape _ _ Hphone) as [Hno | (Hne & Hall & Hlen & Hd)];
      [contradiction |].
    exists (digits (f_phone f)).
    destruct (digits (f_phone f)) as [| c r] eqn:Hdig; [congruence |].
    split; [reflexivity |]. split; [discriminate |].
    split; [exact Hall |]. split; [exact Hlen |].
    unfold str_or. destruct Hd as [-> | ->]; [left | right]; reflexivity.
  - exact (normalizeStatus_label _ _ Hstatus).
  - intros x Hin. split.
    + intros ->. cbn [In] in Hin.
      destruct Hin as [Hx | [Hx | [Hx | [Hx | []]]]];
        try exact (or_null_not_blank _ Hx).
      rewrite Hname in Hx. destruct (prop b "name"); cbn [if_string] in Hx;
        try discriminate. exact (or_null_not_blank _ Hx).
    + cbn [In] in Hin. destruct Hin as [Hx | [Hx | [Hx | [Hx | []]]]].
      * apply (or_null_trimmed _ _ (fun t => trimmed_or_null_trimmed _ _ t Hext) Hx).
      * apply (or_null_trimmed _ _ (fun t => trimmed_or_null_trimmed _ _ t Hsrc) Hx).
      * apply (or_null_trimmed (f_note f)); [| exact Hx].
        rewrite Hnote. destruct (prop b "note"); cbn [if_string]; try discriminate.
        intros t Ht. injection Ht as <-. apply trim_idem.
      * rewrite Hname in Hx. destruct (prop b "name"); cbn [if_string] in Hx;
          try discriminate.
        apply (or_null_trimmed (Some (Str.trim s))); [| exact Hx].
        intros t Ht. injection Ht as <-. apply trim_idem.
  - rewrite Hpid. unfold coalesce.
    destruct (prop b "person_id"); cbn [nullish]; discriminate.
Qed.

Lemma inserted_values_are_well_formed_witness :
  let b := JObj [("caller", JStr " +40 (712) 345-678 "); ("status", JStr "Answered");
                 ("extension", JNum 201); ("note", JStr "  "); ("name", JStr " Ana ")] in
  insert_of 0
    (mkFields (mkPhone "+40712345678" "40712345678") (Some "201") None "answered"
              (Some "") (mkMeta (Some "Ana") JNull)) =
  mkInsert "+40712345678" (Some "40712345678") (Some "201") None "answered" None
           (Some "Ana") JNull 0 /\
  In "answered" STATUS_LABELS.
Proof.
  intros b. split; [reflexivity |].
  exact (proj1 (proj2 (inserted_values_are_well_formed b
    (mkFields (mkPhone "+40712345678" "40712345678") (Some "201") None "answered"
              (Some "") (mkMeta (Some "Ana") JNull)) 0 eq_refl))).
Defined.

(** X7: the event kept in memory and broadcast carries the values that
    were bound to the INSERT, column by column; in particular its digits
    are never the empty string that the INSERT would have turned into
    null. *)
Theorem event_mirrors_inserted_row
    (b : jsval) (f : call_fields) (id : string) (now : Z) :
  normalize b = Ok (Some f) ->
  let p := insert_of now f in
  let e := entry_of id now f in
  e_id e = id /\
  e_phone e = i_phone p /\ e_digits e = i_digits p /\
  e_extension e = i_extension p /\ e_source e = i_source p /\
  e_status e = Some (i_status p) /\ e_note e = i_note p /\
  callerName (e_meta e) = i_caller_name p /\
  personId (e_meta e) = i_person_id p /\
  e_received_at e = i_received_at p.
Proof.
  intros Hf. destruct (normalize_fields b f Hf) as (Hphone & Hsome & _).
  cbv zeta. unfold insert_of, entry_of. cbn. repeat split.
  destruct (sanitizePhone_shape _ _ Hphone) as [Hno | (Hne & _)]; [contradiction |].
  destruct (digits (f_phone f)); [congruence | reflexivity].
Qed.

Lemma event_mirrors_inserted_row_witness :
  let f := mkFields (mkPhone "0712" "0712") None None "ringing" None
                    (mkMeta None JNull) in
  e_digits (entry_of "9" 5 f) = i_digits (insert_of 5 f).
Proof.
  intros f.
  exact (proj1 (proj2 (proj2 (event_mirrors_inserted_row
           (JObj [("number", JStr "0712")]) f "9" 5 eq_refl)))).
Defined.

(** ** The shared secret *)

Example secret_header_wins :
  authorize (Some "abc")
            (mkRequest (Some "nope") (JObj [("secret", JStr "abc")]) (JObj []) false)
            initial_state = None.
Proof. reflexivity. Qed.

Example secret_in_query :
  authorize (Some "abc")
            (mkRequest None (JObj [("secret", JStr "")]) (JObj [("secret", JStr "abc")]) false)
            initial_state = Some initial_state.
Proof. reflexivity. Qed.

(** X8: with a secret configured, a request is authorised exactly when
    the first non-empty candidate among the x-pbx-secret header, the body
    field secret and the query parameter secret, in that order, is a
    string equal to the configured secret: a wrong header is not rescued
    by a right body field.  The state is left as it is. *)
Theorem first_secret_candidate_decides
    (expected : string) (req : request) (st : state) :
  expected <> "" ->
  authorize (Some expected) req st =
  match List.find truthy (secret_candidates req) with
  | Some (JStr s) => if String.eqb s expected then Some st else None
  | _ => None
  end.
Proof.
  intros Hne. unfold authorize, or_null.
  destruct expected as [| c r]; [congruence |]. cbn [Str.is_empty].
  unfold providedSecret, secret_candidates, js_or. cbn [List.find].
  set (h := match header_secret req with Some s => JStr s | None => JUndefined end).
  assert (Hm : forall v, truthy v = true ->
                (if secret_matches v (String c r) then Some st else None) =
                match v with
                | JStr s => if String.eqb s (String c r) then Some st else None
                | _ => None
                end).
  { intros v Hv. unfold secret_matches. rewrite Hv. destruct v; reflexivity. }
  destruct (truthy h) eqn:Hh.
  - rewrite Hh. apply Hm, Hh.
  - destruct (truthy (prop (body req) "secret")) eqn:Hb.
    + apply Hm, Hb.
    + destruct (truthy (prop (query req) "secret")) eqn:Hq.
      * apply Hm, Hq.
      * unfold secret_matches. rewrite Hq. reflexivity.
Qed.

Lemma first_secret_candidate_decides_witness :
  authorize (Some "abc")
            (mkRequest (Some "nope") (JObj [("secret", JStr "abc")]) (JObj []) false)
            initial_state = None.
Proof.
  apply (first_secret_candidate_decides "abc"
           (mkRequest (Some "nope") (JObj [("secret", JStr "abc")]) (JObj []) false)
           initial_state).
  discriminate.
Defined.

(** X9: without a configured secret (unset, or set to the empty string)
    every request is authorised, whatever secret it carries; the only
    effect is the one-time warning flag, which is raised and stays
    raised. *)
Theorem no_secret_accepts_everything
    (secret : option string) (req req1 : request) (st : state) :
  or_null secret = None ->
  exists st1,
    authorize secret req st = Some st1 /\
    secretWarningLogged st1 = true /\
    set_secretWarningLogged true st = st1 /\
    authorize secret req1 st1 = Some st1.
Proof.
  intros Hs. unfold authorize. rewrite Hs.
  destruct st as [ls lc seq flag h rp]. cbn [secretWarningLogged].
  destruct flag; eexists; (split; [reflexivity |]); repeat split.
Qed.

Lemma no_secret_accepts_everything_witness :
  exists st1,
    authorize (Some "") (mkRequest (Some "x") JUndefined JUndefined false)
              initial_state = Some st1 /\
    secretWarningLogged st1 = true /\
    set_secretWarningLogged true initial_state = st1 /\
    authorize (Some "") (mkRequest None JUndefined JUndefined false) st1 = Some st1.
Proof. apply no_secret_accepts_everything. reflexivity. Defined.

Section Gates.

Context {DB : Type} `{Store DB}.

Implicit Types (st : state) (rt : runtime) (db : DB).


(** X11: a request that is not answered 200 leaves no trace: the ring,
    the last-known call, the subscriber registry, the id counter and the
    runtime (frames written, intervals) are what they were once the
    initialisation was awaited, whether the answer is 401, 400, 500 or
    an exception of the normaliser. *)
Theorem rejected_post_leaves_no_trace
    (secret : option string) (fails : nat -> bool) (now : Z) (req : request)
    st rt db (ready : result unit) st1 db1 (r : response) st2 rt2 db2 :
  ensurePersistenceReady st db = (ready, st1, db1) ->
  post secret fails now req (st, rt, db) = (r, (st2, rt2, db2)) ->
  r <> Json 200 SuccessBody ->
  rt2 = rt /\ callHistory st2 = callHistory st1 /\ lastCall st2 = lastCall st1 /\
  listeners st2 = listeners st1 /\ sequence st2 = sequence st1 /\
  readyPromise st2 = readyPromise st1.
Proof.
  intros Hready Hpost Hr. unfold post in Hpost. rewrite Hready in Hpost.
  destruct ready as [[] | e];
    [| injection Hpost as <- <- <- <-; repeat split].
  destruct (authorize secret req st1) as [sta |] eqn:Hauth;
    [| injection Hpost as <- <- <- <-; repeat split].
  destruct (authorize_same_ring _ _ _ _ Hauth) as ((Hh & Hl & Hp) & Hs & Hq).
  destruct (normalize (body req)) as [[f |] | e];
    [| injection Hpost as <- <- <- <-; repeat split; assumption
     | injection Hpost as <- <- <- <-; repeat split; assumption].
  pose proof (persist_spec fails now f sta rt db1) as Hper.
  rewrite Hpost in Hper.
  destruct Hper as [(e & _ & _ & -> & ->) | (rep & ev & tail & _ & -> & _)];
    [repeat split; assumption | congruence].
Qed.

End Gates.


Lemma rejected_post_leaves_no_trace_witness :
  let st1 := mkState [] None 0 false [] (Some (Ok tt)) in
  let st2 := mkState [] None 0 true [] (Some (Ok tt)) in
  initial_runtime = initial_runtime /\ callHistory st2 = callHistory st1 /\
  lastCall st2 = lastCall st1 /\ listeners st2 = listeners st1 /\
  sequence st2 = sequence st1 /\ readyPromise st2 = readyPromise st1.
Proof.
  intros st1 st2.
  apply (rejected_post_leaves_no_trace None (fun _ => false) 0
           (mkRequest None (JObj [("phone", JStr "n/a")]) (JObj []) false)
           initial_state initial_runtime MemStore.empty (Ok tt) st1
           (MemStore.mk [] 1 [] 2) (Json 400 (ErrorBody "phone missing"))
           st2 initial_runtime (MemStore.mk [] 1 [] 2));
    try reflexivity.
  discriminate.
Defined.

(** ** Bootstrap, single flight and the id counter *)

Lemma load_rows_sequence (rs : list row) :
  forall st,
    sequence st <= sequence (fold_left load_row rs st) /\
    forall r, In r rs -> r_id r <= sequence (fold_left load_row rs st).
Proof.
  induction rs as [| x rs IH]; intros st; cbn [fold_left].
  - split; [lia | intros r []].
  - destruct (IH (load_row st x)) as [Hle Hall].
    assert (Hx : sequence st <= sequence (load_row st x) /\
                 r_id x <= sequence (load_row st x)).
    { unfold load_row. cbn [sequence set_sequence].
      destruct (r_id x =? 0) eqn:Hz; [apply Z.eqb_eq in Hz |]; lia. }
    split; [lia |]. intros r [<- | Hin]; [lia | apply Hall, Hin].
Qed.

Lemma ensure_settled (DB : Type) `{Store DB} (st : state) (db : DB)
                     (outcome : result unit) :
  readyPromise st = Some outcome ->
  ensurePersistenceReady st db = (outcome, st, db).
Proof. intros Hp. unfold ensurePersistenceReady. rewrite Hp. reflexivity. Qed.

(* What [broadcast] leaves of the registry and adds to the sinks. *)
Lemma broadcast_effect (fails : nat -> bool) (ev : entry)
                       (st : state) (rt : runtime) :
  let live := fun l => negb (fails (res l)) in
  listeners (fst (broadcast fails ev (st, rt))) = List.filter live (listeners st) /\
  written (snd (broadcast fails ev (st, rt))) =
    (written rt ++ List.map (fun l => (res l, CallFrame ev))
                            (List.filter live (listeners st)))%list /\
  sequence (fst (broadcast fails ev (st, rt))) = sequence st.
Proof.
  cbv zeta. unfold broadcast. cbn [fst].
  pose proof (deliver_loop fails ev (listeners st) st rt) as Hloop.
  destruct (fold_left (deliver fails ev) (listeners st) (st, rt)) as [st1 rt1].
  destruct Hloop as (Hw & Hl & _ & _ & _ & _ & Hs & _). cbn [fst snd].
  split; [| split; [exact Hw | exact Hs]].
  rewrite Hl. apply filter_ext_in. intros x Hx. f_equal.
  destruct (fails (res x)) eqn:Hdead.
  - apply existsb_exists. exists x. split.
    + apply filter_In. split; [exact Hx | exact Hdead].
    + apply listener_eqb_eq. reflexivity.
  - destruct (existsb _ _) eqn:Hex; [| reflexivity].
    apply existsb_exists in Hex. destruct Hex as (y & Hy & Heq).
    apply listener_eqb_eq in Heq. subst y.
    apply filter_In in Hy. unfold dead in Hy. destruct Hy as [_ Hy]. congruence.
Qed.

Lemma load_rows_flag (rs : list row) :
  forall st,
    secretWarningLogged (fold_left load_row rs st) = secretWarningLogged st.
Proof.
  induction rs as [| x rs IH]; intros st; cbn [fold_left];
    [reflexivity | rewrite IH; reflexivity].
Qed.

Section Lifecycle.

Context {DB : Type} `{Store DB}.

Implicit Types (st : state) (rt : runtime) (db : DB).

(** X12: a successful first initialisation replaces the ring by the rows
    of the bootstrap SELECT, in the order the store returned them, raises
    the id counter to at least every id loaded (and never lowers it), and
    touches neither the subscriber registry nor the warning flag. *)
Theorem bootstrap_loads_rows st db st1 db1 :
  readyPromise st = None ->
  ensurePersistenceReady st db = (Ok tt, st1, db1) ->
  exists created dbq rep,
    db_query db CreateTableIfNotExists = (Ok created, dbq) /\
    db_query dbq (SelectRecent MAX_HISTORY) = (Ok rep, db1) /\
    callHistory st1 = List.map entry_of_row (rows_or_nil rep) /\
    (forall r, In r (rows_or_nil rep) -> r_id r <= sequence st1) /\
    sequence st <= sequence st1 /\
    listeners st1 = listeners st /\
    secretWarningLogged st1 = secretWarningLogged st /\
    readyPromise st1 = Some (Ok tt).
Proof.
  intros Hp Hready. unfold ensurePersistenceReady in Hready. rewrite Hp in Hready.
  unfold prepare in Hready.
  destruct (db_query db CreateTableIfNotExists) as [[created | e] dbq] eqn:Hc;
    [| discriminate].
  destruct (db_query dbq (SelectRecent MAX_HISTORY)) as [[rep | e] dbr] eqn:Hq;
    [| discriminate].
  injection Hready as <- <-. exists created, dbq, rep.
  split; [reflexivity |]. split; [exact Hq |].
  destruct (load_rows_fields (rows_or_nil rep) (set_callHistory [] st))
    as (Hh & _ & _ & Hl).
  destruct (load_rows_sequence (rows_or_nil rep) (set_callHistory [] st))
    as (Hle & Hall).
  pose proof (load_rows_flag (rows_or_nil rep) (set_callHistory [] st)) as Hflag.
  set (loaded := fold_left load_row (rows_or_nil rep) (set_callHistory [] st)) in *.
  cbn [callHistory set_callHistory sequence listeners secretWarningLogged app]
    in Hh, Hle, Hl, Hflag.
  destruct (callHistory loaded) as [| first rest] eqn:Hring;
    cbn [callHistory set_readyPromise set_lastCall sequence listeners
         secretWarningLogged readyPromise];
    rewrite ?Hring; repeat split; auto.
Qed.

(** X13: once the initialisation has settled, its outcome is permanent:
    after any further sequence of turns the state still holds the same
    outcome, and awaiting the initialisation again returns it without a
    query to the store and without a change of state. *)
Theorem init_outcome_is_permanent
    (secret : option string) (w : @world DB) (ts : list turn)
    (outcome : result unit) :
  readyPromise (state_of w) = Some outcome ->
  let w1 := snd (run secret w ts) in
  readyPromise (state_of w1) = Some outcome /\
  forall db2,
    ensurePersistenceReady (state_of w1) db2 = (outcome, state_of w1, db2).
Proof.
  intros Hp. cbv zeta.
  assert (Hrun : readyPromise (state_of (snd (run secret w ts))) = Some outcome).
  { revert w Hp. induction ts as [| t ts IH]; intros w Hp; cbn [run];
      [exact Hp |].
    assert (Hstep : readyPromise (state_of (snd (step secret w t))) = Some outcome).
    { destruct w as [[st rt] db]. unfold state_of in *. cbn [fst] in Hp.
      pose proof (ensure_settled DB st db outcome Hp) as Hens.
      destruct t as [fails now req | fails a sink | a | a q | l | fails l];
        cbn [step].
      - unfold post. rewrite Hens.
        destruct outcome as [[] | e]; [| exact Hp].
        destruct (authorize secret req st) as [st2 |] eqn:Hauth; [| exact Hp].
        destruct (authorize_same_ring _ _ _ _ Hauth) as ((_ & _ & Hp2) & _).
        destruct (normalize (body req)) as [[f |] | e]; cbn [snd fst];
          try congruence.
        pose proof (persist_spec fails now f st2 rt db) as Hper.
        destruct (persist fails now f (st2, rt, db)) as [r [[st3 rt3] db3]].
        cbn [snd fst].
        destruct Hper as [(e & _ & _ & -> & _) | (rep & ev & tail & _ & _ & _ & _ & Hp3)];
          congruence.
      - unfold getStream. destruct a; cbn [negb]; [| exact Hp]. rewrite Hens.
        destruct outcome as [[] | e]; [| exact Hp].
        destruct (write fails sink RetryFrame rt) as [rt1 |]; [| exact Hp].
        destruct (setInterval rt1) as [t rt2].
        destruct (add_listener_same_ring (mkListener sink (Some t)) st)
          as (_ & _ & Hp2).
        destruct (lastCall _); [destruct (write _ _ _ _) |]; cbn [snd fst];
          congruence.
      - unfold getLast. destruct a; cbn [negb]; [| exact Hp]. rewrite Hens.
        destruct outcome as [[] | e]; exact Hp.
      - unfold getLog. destruct a; cbn [negb]; [| exact Hp]. rewrite Hens.
        destruct outcome as [[] | e]; [| exact Hp].
        destruct (logLimit _); [| exact Hp].
        destruct (db_query db _) as [[rep | e] db2]; exact Hp.
      - pose proof (cleanupListener_same_ring l st rt) as (_ & _ & Hp2).
        destruct (cleanupListener l (st, rt)) as [st1 rt1]. cbn [fst snd] in *.
        congruence.
      - pose proof (heartbeatTick_same_ring fails l st rt) as (_ & _ & Hp2).
        destruct (heartbeatTick fails l (st, rt)) as [st1 rt1]. cbn [fst snd] in *.
        congruence. }
    destruct (step secret w t) as [r w1]. cbn [snd] in Hstep.
    specialize (IH w1 Hstep).
    destruct (run secret w1 ts) as [rs w2]. exact IH. }
  split; [exact Hrun |]. intros db2. apply ensure_settled, Hrun.
Qed.

(** X14: after a failed initialisation the three authenticated GET
    endpoints answer 500 'server error' and do nothing else: no listener
    is registered, no frame is written, no query is sent. *)
Theorem failed_init_fails_the_gets
    (fails : nat -> bool) (sink : nat) (q : jsval) (e : error) st rt db :
  readyPromise st = Some (Throw e) ->
  getStream fails true sink (st, rt, db) =
    (Json 500 (ErrorBody "server error"), (st, rt, db)) /\
  getLast true (st, rt, db) =
    (Json 500 (ErrorBody "server error"), (st, rt, db)) /\
  getLog true q (st, rt, db) =
    (Json 500 (ErrorBody "server error"), (st, rt, db)).
Proof.
  intros Hp. pose proof (ensure_settled DB st db _ Hp) as Hens.
  unfold getStream, getLast, getLog. cbn [negb]. rewrite Hens. repeat split.
Qed.

End Lifecycle.

Lemma bootstrap_loads_rows_witness :
  let r := mkRow 7 "0712" (Some "0712") None None (Some "missed") None None None
                 1700000000 None None in
  let db := MemStore.mk [r] 8 [] 0 in
  exists created dbq rep,
    db_query db CreateTableIfNotExists = (Ok created, dbq) /\
    db_query dbq (SelectRecent MAX_HISTORY) = (Ok rep, MemStore.mk [r] 8 [] 2) /\
    callHistory (mkState [] (Some (entry_of_row r)) 7 false [entry_of_row r]
                         (Some (Ok tt))) =
      List.map entry_of_row (rows_or_nil rep) /\
    (forall x, In x (rows_or_nil rep) -> r_id x <= 7) /\
    0 <= 7 /\
    @nil listener = [] /\ false = false /\
    Some (Ok tt) = Some (@Ok unit tt).
Proof.
  intros r db.
  apply (bootstrap_loads_rows initial_state db
           (mkState [] (Some (entry_of_row r)) 7 false [entry_of_row r] (Some (Ok tt)))
           (MemStore.mk [r] 8 [] 2));
    reflexivity.
Defined.

Lemma init_outcome_is_permanent_witness :
  let w := (mkState [] None 0 false [] (Some (Throw (StoreError 2002))),
            initial_runtime, MemStore.empty) in
  let w1 := snd (run None w [GetLast true; GetStream (fun _ => false) true 1%nat]) in
  readyPromise (state_of w1) = Some (Throw (StoreError 2002)).
Proof.
  intros w.
  exact (proj1 (init_outcome_is_permanent None w
                  [GetLast true; GetStream (fun _ => false) true 1%nat]
                  (Throw (StoreError 2002)) eq_refl)).
Defined.

Lemma failed_init_fails_the_gets_witness :
  let st := mkState [] None 0 false [] (Some (Throw (StoreError 2002))) in
  getLast true (st, initial_runtime, MemStore.empty) =
    (Json 500 (ErrorBody "server error"), (st, initial_runtime, MemStore.empty)).
Proof.
  intros st.
  exact (proj1 (proj2 (failed_init_fails_the_gets (fun _ => false) 1%nat (JObj [])
                         (StoreError 2002) st initial_runtime MemStore.empty eq_refl))).
Defined.

(** ** Accepted requests and the id counter *)

(* Pushing an event, making it the last-known call and broadcasting it *)
Lemma publish_fields (fails : nat -> bool) (e : entry) (st : state) (rt : runtime) :
  let b := broadcast fails e (set_lastCall (Some e) (storeInHistory e st), rt) in
  callHistory (fst b) = callHistory (storeInHistory e st) /\
  lastCall (fst b) = Some e /\
  sequence (fst b) = sequence st /\
  listeners (fst b) = List.filter (fun l => negb (fails (res l))) (listeners st) /\
  written (snd b) =
    (written rt ++ List.map (fun l => (res l, CallFrame e))
                            (List.filter (fun l => negb (fails (res l)))
                                         (listeners st)))%list /\
  readyPromise (fst b) = readyPromise st /\
  secretWarningLogged (fst b) = secretWarningLogged st.
Proof.
  cbv zeta.
  set (st3 := set_lastCall (Some e) (storeInHistory e st)).
  pose proof (broadcast_effect fails e st3 rt) as Hb. cbv zeta in Hb.
  pose proof (broadcast_same_ring fails e st3 rt) as Hs.
  pose proof (deliver_loop fails e (listeners st3) st3 rt) as Hloop.
  unfold broadcast in Hb, Hs |- *. cbn [fst] in Hb, Hs |- *.
  destruct (fold_left _ _ _) as [st4 rt4]. cbn [fst snd] in Hb, Hs |- *.
  destruct Hb as (Hl & Hw & Hseq). destruct Hs as (Hh & Hlc & Hp).
  destruct Hloop as (_ & _ & _ & _ & _ & _ & _ & _ & Hflag).
  destruct (storeInHistory_fields e st) as (Hl0 & _ & Hs0 & Hp0).
  subst st3.
  cbn [listeners lastCall set_lastCall sequence readyPromise callHistory
       secretWarningLogged] in *.
  rewrite Hl0 in Hl, Hw. rewrite Hh, Hlc, Hseq, Hs0, Hl, Hw, Hp, Hp0, Hflag.
  repeat split. unfold storeInHistory. destruct (_ <? _); reflexivity.
Qed.

Lemma storeInHistory_any_sequence (e : entry) (k : Z) (st : state) :
  callHistory (storeInHistory e (set_sequence k st)) =
  callHistory (storeInHistory e st).
Proof.
  unfold storeInHistory. cbn [callHistory set_sequence].
  destruct (_ <? _); reflexivity.
Qed.

Section Accepted.

Context {DB : Type} `{Store DB}.

Implicit Types (st : state) (rt : runtime) (db : DB).

(* The state, the runtime and the answer after an INSERT that the store
   accepted. *)
Lemma persist_accepted (fails : nat -> bool) (now : Z) (f : call_fields)
                       st rt db (rep : reply) db1 :
  db_query db (InsertCall (insert_of now f)) = (Ok rep, db1) ->
  let id := assigned_id rep (sequence st) in
  let e := entry_of (Str.of_Z id) now f in
  let live := fun l => negb (fails (res l)) in
  exists st1 rt1,
    persist fails now f (st, rt, db) = (Json 200 SuccessBody, (st1, rt1, db1)) /\
    callHistory st1 = callHistory (storeInHistory e st) /\
    lastCall st1 = Some e /\
    sequence st1 = Z.max (sequence st) id /\
    listeners st1 = List.filter live (listeners st) /\
    written rt1 =
      (written rt ++ List.map (fun l => (res l, CallFrame e))
                              (List.filter live (listeners st)))%list /\
    readyPromise st1 = readyPromise st /\
    secretWarningLogged st1 = secretWarningLogged st.
Proof.
  intros Hq. cbv zeta. unfold persist. rewrite Hq. unfold assigned_id.
  destruct (insertId rep) as [n |]; [destruct (n =? 0) eqn:Hz |]; cbv iota zeta beta.
  - pose proof (publish_fields fails
                  (entry_of (Str.of_Z (sequence st + 1)) now f)
                  (set_sequence (Z.max (sequence st + 1)
                                   (if sequence st + 1 =? 0 then sequence st + 1
                                    else sequence st + 1)) st) rt) as Hpub.
    cbv zeta in Hpub. destruct (broadcast fails _ _) as [st4 rt4].
    cbn [fst snd sequence set_sequence listeners readyPromise secretWarningLogged]
      in Hpub.
    destruct Hpub as (Hh & Hl & Hs & Hr & Hw & Hp & Hf).
    rewrite storeInHistory_any_sequence in Hh.
    exists st4, rt4. rewrite Hs. repeat split; try assumption.
    destruct (sequence st + 1 =? 0); lia.
  - pose proof (publish_fields fails (entry_of (Str.of_Z n) now f)
                  (set_sequence (Z.max (sequence st) (if n =? 0 then sequence st else n))
                                st) rt) as Hpub.
    cbv zeta in Hpub. destruct (broadcast fails _ _) as [st4 rt4].
    cbn [fst snd sequence set_sequence listeners readyPromise secretWarningLogged]
      in Hpub.
    destruct Hpub as (Hh & Hl & Hs & Hr & Hw & Hp & Hf).
    rewrite storeInHistory_any_sequence in Hh.
    exists st4, rt4. rewrite Hs, Hz. repeat split; assumption.
  - pose proof (publish_fields fails
                  (entry_of (Str.of_Z (sequence st + 1)) now f)
                  (set_sequence (Z.max (sequence st + 1)
                                   (if sequence st + 1 =? 0 then sequence st + 1
                                    else sequence st + 1)) st) rt) as Hpub.
    cbv zeta in Hpub. destruct (broadcast fails _ _) as [st4 rt4].
    cbn [fst snd sequence set_sequence listeners readyPromise secretWarningLogged]
      in Hpub.
    destruct Hpub as (Hh & Hl & Hs & Hr & Hw & Hp & Hf).
    rewrite storeInHistory_any_sequence in Hh.
    exists st4, rt4. rewrite Hs. repeat split; try assumption.
    destruct (sequence st + 1 =? 0); lia.
Qed.

(** X15: an accepted request (initialised, authorised, normalised, INSERT
    accepted) is answered 200; the new event takes the id the store
    reports or, failing that, the counter plus one; it becomes the front
    of the ring, which keeps its 500 newest entries, and the last-known
    call; the counter rises to at least the id; one frame is written to
    each subscriber whose sink accepts it, in registration order, and the
    others leave the registry. *)
Theorem accepted_post_publishes
    (secret : option string) (fails : nat -> bool) (now : Z) (req : request)
    st rt db st1 db1 st2 (f : call_fields) (rep : reply) db2 :
  ensurePersistenceReady st db = (Ok tt, st1, db1) ->
  authorize secret req st1 = Some st2 ->
  normalize (body req) = Ok (Some f) ->
  db_query db1 (InsertCall (insert_of now f)) = (Ok rep, db2) ->
  bounded st1 ->
  let id := assigned_id rep (sequence st1) in
  let e := entry_of (Str.of_Z id) now f in
  let live := fun l => negb (fails (res l)) in
  exists st3 rt3,
    post secret fails now req (st, rt, db) =
      (Json 200 SuccessBody, (st3, rt3, db2)) /\
    callHistory st3 = firstn 500 (e :: callHistory st1) /\
    lastCall st3 = Some e /\
    sequence st3 = Z.max (sequence st1) id /\
    listeners st3 = List.filter live (listeners st1) /\
    written rt3 =
      (written rt ++ List.map (fun l => (res l, CallFrame e))
                              (List.filter live (listeners st1)))%list.
Proof.
  intros Hready Hauth Hnorm Hq Hb. cbv zeta.
  destruct (authorize_same_ring _ _ _ _ Hauth) as ((Hh & _ & _) & Hl & Hs).
  destruct (persist_accepted fails now f st2 rt db1 rep db2 Hq)
    as (st3 & rt3 & Hper & Hring & Hlast & Hseq & Hreg & Hw & _).
  exists st3, rt3. unfold post. rewrite Hready, Hauth, Hnorm, Hper.
  rewrite Hs in *. rewrite Hl in *.
  split; [reflexivity |]. split; [| repeat split; assumption].
  rewrite Hring. rewrite storeInHistory_firstn.
  - rewrite Hh. reflexivity.
  - rewrite Hh. unfold bounded, MAX_HISTORY in Hb. lia.
Qed.

Lemma ensure_sequence st db :
  sequence st <= sequence (snd (fst (ensurePersistenceReady st db))).
Proof.
  unfold ensurePersistenceReady.
  destruct (readyPromise st); cbn [fst snd]; [lia |].
  unfold prepare.
  destruct (db_query db CreateTableIfNotExists) as [[created | e] dbq];
    cbn [fst snd sequence set_readyPromise]; [| lia].
  destruct (db_query dbq (SelectRecent MAX_HISTORY)) as [[rep | e] dbr];
    cbn [fst snd sequence set_readyPromise]; [| lia].
  destruct (load_rows_sequence (rows_or_nil rep) (set_callHistory [] st)) as [Hle _].
  cbn [sequence set_callHistory] in Hle.
  destruct (callHistory _); cbn [sequence set_lastCall]; exact Hle.
Qed.

Lemma step_sequence (secret : option string) (w : @world DB) (t : turn) :
  sequence (state_of w) <= sequence (state_of (snd (step secret w t))).
Proof.
  destruct w as [[st rt] db]. unfold state_of at 1. cbn [fst].
  pose proof (ensure_sequence st db) as Hens.
  destruct t as [fails now req | fails a sink | a | a q | l | fails l];
    cbn [step].
  - unfold post.
    destruct (ensurePersistenceReady st db) as [[ready st1] db1].
    cbn [fst snd] in Hens.
    destruct ready as [[] | e]; [| exact Hens].
    destruct (authorize secret req st1) as [st2 |] eqn:Hauth; [| exact Hens].
    destruct (authorize_same_ring _ _ _ _ Hauth) as (_ & _ & Hs).
    destruct (normalize (body req)) as [[f |] | e]; unfold state_of; cbn [fst snd];
      try lia.
    destruct (db_query db1 (InsertCall (insert_of now f))) as [[rep | e] db2] eqn:Hq.
    + destruct (persist_accepted fails now f st2 rt db1 rep db2 Hq)
        as (st3 & rt3 & Hper & _ & _ & Hseq & _).
      rewrite Hper. cbn [fst snd]. lia.
    + unfold persist. rewrite Hq. cbn [fst snd]. lia.
  - unfold getStream. destruct a; cbn [negb]; [| unfold state_of; cbn; lia].
    destruct (ensurePersistenceReady st db) as [[ready st1] db1].
    cbn [fst snd] in Hens.
    destruct ready as [[] | e]; [| exact Hens].
    destruct (write fails sink RetryFrame rt) as [rt1 |]; [| exact Hens].
    destruct (setInterval rt1) as [t rt2].
    assert (Hadd : sequence (add_listener (mkListener sink (Some t)) st1) = sequence st1)
      by (unfold add_listener; destruct (existsb _ _); reflexivity).
    destruct (lastCall _); [destruct (write _ _ _ _) |];
      unfold state_of; cbn [fst snd]; lia.
  - unfold getLast. destruct a; cbn [negb]; [| unfold state_of; cbn; lia].
    destruct (ensurePersistenceReady st db) as [[ready st1] db1].
    cbn [fst snd] in Hens. destruct ready as [[] | e]; exact Hens.
  - unfold getLog. destruct a; cbn [negb]; [| unfold state_of; cbn; lia].
    destruct (ensurePersistenceReady st db) as [[ready st1] db1].
    cbn [fst snd] in Hens. destruct ready as [[] | e]; [| exact Hens].
    destruct (logLimit _); [| exact Hens].
    destruct (db_query db1 _) as [[rep | e] db2]; exact Hens.
  - unfold cleanupListener, state_of. cbn. lia.
  - unfold heartbeatTick, cleanupListener, state_of. cbn [snd fst].
    destruct (write _ _ _ _); cbn; lia.
Qed.

(** X16: the id counter never decreases, whatever the sequence of turns
    and whatever the store answers. *)
Theorem sequence_never_decreases
    (secret : option string) (ts : list turn) (w : @world DB) :
  sequence (state_of w) <= sequence (state_of (snd (run secret w ts))).
Proof.
  revert w. induction ts as [| t ts IH]; intros w; cbn [run]; [cbn; lia |].
  pose proof (step_sequence secret w t) as Hstep.
  destruct (step secret w t) as [r w1]. cbn [snd] in Hstep.
  specialize (IH w1). destruct (run secret w1 ts) as [rs w2]. cbn [snd] in *. lia.
Qed.

End Accepted.

Lemma accepted_post_publishes_witness :
  let req := mkRequest None (JObj [("phone", JStr "0712 345 678")]) (JObj []) false in
  let l1 := mkListener 1 (Some 10%nat) in
  let l2 := mkListener 2 (Some 11%nat) in
  let st := mkState [l1; l2] None 4 true [] (Some (Ok tt)) in
  let rt := mkRuntime [10; 11]%nat 12 [] in
  let e := entry_of "5" 99
             (mkFields (mkPhone "0712345678" "0712345678") None None "ringing" None
                       (mkMeta None JNull)) in
  exists st3 rt3,
    post None (fun sink => Nat.eqb sink 1) 99 req
         (st, rt, MemStore.mk [] 0 [] 0) =
      (Json 200 SuccessBody, (st3, rt3, MemStore.mk
         [MemStore.row_of 0 (insert_of 99
            (mkFields (mkPhone "0712345678" "0712345678") None None "ringing" None
                      (mkMeta None JNull)))] 1 [] 1)) /\
    callHistory st3 = firstn 500 [e] /\
    lastCall st3 = Some e /\
    sequence st3 = Z.max 4 5 /\
    listeners st3 = [l2] /\
    written rt3 = [(2%nat, CallFrame e)].
Proof.
  intros req l1 l2 st rt e.
  apply (accepted_post_publishes None (fun sink => Nat.eqb sink 1) 99 req
           st rt (MemStore.mk [] 0 [] 0) st (MemStore.mk [] 0 [] 0) st
           (mkFields (mkPhone "0712345678" "0712345678") None None "ringing" None
                     (mkMeta None JNull))
           (mkReply None (Some 0)));
    try reflexivity.
  unfold bounded. vm_compute. discriminate.
Defined.

(** ** Subscribers *)

Lemma filter_idem {A} (f : A -> bool) (l : list A) :
  List.filter f (List.filter f l) = List.filter f l.
Proof.
  rewrite filter_twice. apply filter_ext. intros x. destruct (f x); reflexivity.
Qed.

(** X17: cleanupListener is idempotent: the four connection events that
    call it for one listener ('close' and 'end' of the request, 'close'
    and 'finish' of the response) leave the same state as the first. *)
Theorem cleanupListener_idempotent (l : listener) (w : state * runtime) :
  cleanupListener l (cleanupListener l w) = cleanupListener l w.
Proof.
  destruct w as [st rt]. unfold cleanupListener.
  destruct (heartbeat l) as [t |]; unfold set_listeners, clearInterval;
    cbn [listeners lastCall sequence secretWarningLogged callHistory readyPromise
         timers next_timer written];
    rewrite ?filter_idem; reflexivity.
Qed.

Lemma filter_out_last {A} (f : A -> bool) (l : list A) (x : A) :
  f x = false -> (forall y, In y l -> f y = true) ->
  List.filter f (l ++ [x]) = l.
Proof.
  intros Hx Hl. rewrite filter_app. cbn [List.filter]. rewrite Hx, app_nil_r.
  induction l as [| y l IH]; [reflexivity |].
  cbn [List.filter]. rewrite (Hl y (or_introl eq_refl)). f_equal.
  apply IH. intros z Hz. apply Hl. right. exact Hz.
Qed.

Section Streams.

Context {DB : Type} `{Store DB}.

Implicit Types (st : state) (rt : runtime) (db : DB).

(** X18: opening a stream and closing it is a round trip on the
    registry: on an initialised router, a stream on a live sink is
    registered with a running heartbeat interval and has received the
    retry hint (then the last-known call, if any); cleaning that listener
    up gives back the state and the intervals of before, provided the
    interval handle is fresh. *)
Theorem stream_open_then_close
    (fails : nat -> bool) (sink : nat) st rt db :
  readyPromise st = Some (Ok tt) ->
  fails sink = false ->
  ~ In (next_timer rt) (timers rt) ->
  ~ In (mkListener sink (Some (next_timer rt))) (listeners st) ->
  let l := mkListener sink (Some (next_timer rt)) in
  exists st1 rt1,
    getStream fails true sink (st, rt, db) = (StreamOpen, (st1, rt1, db)) /\
    listeners st1 = (listeners st ++ [l])%list /\
    timers rt1 = (timers rt ++ [next_timer rt])%list /\
    written rt1 =
      (written rt ++ (sink, RetryFrame) ::
         match lastCall st with
         | Some c => [(sink, CallFrame c)]
         | None => []
         end)%list /\
    fst (cleanupListener l (st1, rt1)) = st /\
    timers (snd (cleanupListener l (st1, rt1))) = timers rt.
Proof.
  intros Hp Hlive Hfresh Hnew. cbv zeta.
  set (l := mkListener sink (Some (next_timer rt))) in *.
  assert (Hadd : add_listener l st = set_listeners (listeners st ++ [l]) st).
  { unfold add_listener. destruct (existsb (listener_eqb l) (listeners st)) eqn:Hex;
      [| reflexivity].
    apply existsb_exists in Hex. destruct Hex as (y & Hy & Heq).
    apply listener_eqb_eq in Heq. subst y. contradiction. }
  assert (Hback : List.filter (fun x => negb (listener_eqb x l)) (listeners st ++ [l]) =
                  listeners st).
  { apply filter_out_last.
    - rewrite (proj2 (listener_eqb_eq l l) eq_refl). reflexivity.
    - intros y Hy. destruct (listener_eqb y l) eqn:Heq; [| reflexivity].
      apply listener_eqb_eq in Heq. subst y. contradiction. }
  assert (Htimers : List.filter (fun u => negb (Nat.eqb u (next_timer rt)))
                                (timers rt ++ [next_timer rt]) = timers rt).
  { apply filter_out_last.
    - rewrite Nat.eqb_refl. reflexivity.
    - intros y Hy. destruct (Nat.eqb y (next_timer rt)) eqn:Heq; [| reflexivity].
      apply Nat.eqb_eq in Heq. subst y. contradiction. }
  unfold getStream. cbn [negb]. rewrite (ensure_settled DB st db _ Hp).
  unfold write. rewrite Hlive. unfold setInterval.
  cbn [timers next_timer written]. fold l. rewrite Hadd.
  cbn [lastCall set_listeners].
  destruct (lastCall st) as [c |] eqn:Hlast.
  - eexists; eexists. split; [reflexivity |].
    cbn [listeners set_listeners timers written]. rewrite <- app_assoc.
    repeat split.
    + unfold cleanupListener. cbn [heartbeat l fst listeners set_listeners].
      fold l. rewrite Hback. destruct st; cbn in *. subst. reflexivity.
    + unfold cleanupListener, clearInterval. cbn [heartbeat l snd timers].
      exact Htimers.
  - eexists; eexists. split; [reflexivity |].
    cbn [listeners set_listeners timers written].
    repeat split.
    + unfold cleanupListener. cbn [heartbeat l fst listeners set_listeners].
      fold l. rewrite Hback. destruct st; cbn in *. subst. reflexivity.
    + unfold cleanupListener, clearInterval. cbn [heartbeat l snd timers].
      exact Htimers.
Qed.

End Streams.

Lemma stream_open_then_close_witness :
  let st := mkState [] (Some (sample_entry 3)) 3 true [sample_entry 3] (Some (Ok tt)) in
  let l := mkListener 7 (Some 0%nat) in
  exists st1 rt1,
    getStream (fun _ => false) true 7 (st, initial_runtime, MemStore.empty) =
      (StreamOpen, (st1, rt1, MemStore.empty)) /\
    listeners st1 = [l] /\
    timers rt1 = [0%nat] /\
    written rt1 = [(7%nat, RetryFrame); (7%nat, CallFrame (sample_entry 3))] /\
    fst (cleanupListener l (st1, rt1)) = st /\
    timers (snd (cleanupListener l (st1, rt1))) = [].
Proof.
  intros st l.
  apply (stream_open_then_close (fun _ => false) 7 st initial_runtime MemStore.empty);
    try reflexivity; intros [].
Defined.

(** X19: broadcasts keep their order on every sink: after the broadcast
    of an event and then of another, the frames of the first all precede
    the frames of the second, each list in registration order, and the
    second event only goes to subscribers that the first one reached. *)
Theorem broadcasts_keep_their_order
    (f1 f2 : nat -> bool) (a b : entry) (st : state) (rt : runtime) :
  let w2 := broadcast f2 b (broadcast f1 a (st, rt)) in
  let reached1 := List.filter (fun l => negb (f1 (res l))) (listeners st) in
  let reached2 := List.filter (fun l => negb (f2 (res l))) reached1 in
  written (snd w2) =
    (written rt ++ List.map (fun l => (res l, CallFrame a)) reached1
                ++ List.map (fun l => (res l, CallFrame b)) reached2)%list /\
  listeners (fst w2) = reached2 /\
  (forall l, In l reached2 -> In l reached1).
Proof.
  cbv zeta.
  destruct (broadcast_effect f1 a st rt) as (Hl1 & Hw1 & _).
  destruct (broadcast f1 a (st, rt)) as [st1 rt1]. cbn [fst snd] in Hl1, Hw1.
  destruct (broadcast_effect f2 b st1 rt1) as (Hl2 & Hw2 & _).
  rewrite Hl1 in Hl2, Hw2. rewrite Hw1 in Hw2.
  split; [rewrite Hw2, <- app_assoc; reflexivity |].
  split; [exact Hl2 |].
  intros l Hin. apply filter_In in Hin. apply Hin.
Qed.

(** ** Rows of the log *)

(** X20: in a row of the log, a non-empty caller name sent by the PBX
    wins over the name of the joined contact, which is used only when the
    PBX sent none or an empty one; likewise a non-zero person id stored
    with the call wins over the id of the joined contact, which is used
    only when the call has none or 0; an empty name and the id 0 are
    never returned, null takes their place; the other columns are passed
    through. *)
Theorem log_row_prefers_pbx_values (r : row) :
  let e := log_entry_of_row r in
  (forall n, r_caller_name r = Some n -> n <> "" -> l_caller_name e = Some n) /\
  (or_null (r_caller_name r) = None ->
   l_caller_name e = or_null (r_person_name r)) /\
  l_caller_name e <> Some "" /\
  (forall n, r_person_id r = Some n -> n <> 0 -> l_person_id e = Some n) /\
  (r_person_id r = None \/ r_person_id r = Some 0 ->
   (forall m, r_linked_person_id r = Some m -> m <> 0 -> l_person_id e = Some m) /\
   (r_linked_person_id r = None \/ r_linked_person_id r = Some 0 ->
    l_person_id e = None)) /\
  l_person_id e <> Some 0 /\
  l_id e = Str.of_Z (r_id r) /\ l_phone e = r_phone r /\
  l_digits e = r_digits r /\ l_status e = r_status r /\
  l_received_at e = r_received_at r /\ l_extension e = r_extension r /\
  l_source e = r_source r /\ l_note e = r_note r.
Proof.
  cbv zeta. unfold log_entry_of_row.
  cbn [l_caller_name l_person_id l_id l_phone l_digits l_status
       l_received_at l_extension l_source l_note].
  unfold opt_str_or, opt_num_or.
  split; [| split; [| split; [| split; [| split; [| split]]]]].
  - intros n Hn Hne. rewrite Hn. cbn [or_null].
    destruct n; [congruence | reflexivity].
  - intros Hnone. rewrite Hnone. reflexivity.
  - destruct (or_null (r_caller_name r)) as [s |] eqn:Hc.
    + rewrite <- Hc. apply or_null_not_blank.
    + apply or_null_not_blank.
  - intros n Hn Hne. rewrite Hn. apply Z.eqb_neq in Hne. rewrite Hne. reflexivity.
  - intros Hblank.
    assert (Hown : match r_person_id r with
                   | Some n => (n =? 0) = true
                   | None => True
                   end)
      by (destruct Hblank as [-> | ->]; [exact I | reflexivity]).
    split.
    + intros m Hm Hne. rewrite Hm. apply Z.eqb_neq in Hne. rewrite Hne.
      destruct (r_person_id r) as [n |]; [rewrite Hown |]; reflexivity.
    + intros Hlinked.
      destruct (r_person_id r) as [n |]; [rewrite Hown |];
        destruct Hlinked as [-> | ->]; reflexivity.
  - destruct (r_person_id r) as [n |]; [destruct (n =? 0) eqn:Hz |];
      try (destruct (r_linked_person_id r) as [m |];
           [destruct (m =? 0) eqn:Hm |]; try discriminate;
           intros Heq; injection Heq as ->; discriminate).
  - repeat split.
Qed.

(** ** Decimal numerals as limit *)

Lemma digits_value_acc (d : Decimal.uint) :
  forall a : positive,
    digits_value (Z.pos a) (NilEmpty.string_of_uint d) =
    Z.pos (Pos.of_uint_acc d a).
Proof.
  induction d as [| d IH | d IH | d IH | d IH | d IH | d IH | d IH | d IH | d IH | d IH];
    intros a; cbn [NilEmpty.string_of_uint Pos.of_uint_acc digits_value];
    [reflexivity | | | | | | | | | |];
    match goal with
    | |- context [Str.is_digit ?c] => change (Str.is_digit c) with true
    end; cbv iota; rewrite <- IH; f_equal;
    match goal with
    | |- context [Z.of_N (Str.code ?c)] =>
        let k := eval vm_compute in (Z.of_N (Str.code c)) in
        change (Z.of_N (Str.code c)) with k
    end; lia.
Qed.

Lemma digits_value_uint (d : Decimal.uint) :
  digits_value 0 (NilEmpty.string_of_uint d) = Z.of_N (Pos.of_uint d).
Proof.
  induction d as [| d IH | d IH | d IH | d IH | d IH | d IH | d IH | d IH | d IH | d IH];
    cbn [NilEmpty.string_of_uint Pos.of_uint digits_value];
    [reflexivity | exact IH | | | | | | | | |];
    match goal with
    | |- context [Str.is_digit ?c] => change (Str.is_digit c) with true
    end; cbv iota;
    match goal with
    | |- digits_value ?k _ = _ =>
        let v := eval vm_compute in k in change k with v
    end; apply digits_value_acc.
Qed.

(* A text that starts with a digit parses as the value of its digits,
   and as the opposite after a minus sign. *)
Lemma parseInt10_digits (c : ascii) (r : string) :
  Str.is_digit c = true ->
  parseInt10 (String c r) = Some (digits_value 0 (String c r)) /\
  parseInt10 (String "-" (String c r)) = Some (- digits_value 0 (String c r)).
Proof.
  intros Hd.
  destruct c as [[] [] [] [] [] [] [] []]; try discriminate Hd;
    split; reflexivity.
Qed.

Lemma string_of_uint_head (d : Decimal.uint) :
  d <> Decimal.Nil ->
  exists c r, NilEmpty.string_of_uint d = String c r /\ Str.is_digit c = true.
Proof.
  destruct d; [congruence | | | | | | | | | |]; intros _;
    cbn [NilEmpty.string_of_uint]; eexists; eexists; split; reflexivity.
Qed.

Lemma parseInt10_of_Z (n : Z) : parseInt10 (Str.of_Z n) = Some n.
Proof.
  destruct n as [| p | p]; [reflexivity | |];
    unfold Str.of_Z; cbn [Z.to_int NilZero.string_of_int];
    pose proof (DecimalPos.Unsigned.to_uint_nonnil p) as Hnn;
    pose proof (DecimalPos.Unsigned.of_to p) as Hof;
    pose proof (digits_value_uint (Pos.to_uint p)) as Hval;
    destruct (string_of_uint_head _ Hnn) as (c & r & Hs & Hc);
    destruct (parseInt10_digits c r Hc) as [Hplus Hminus];
    unfold NilZero.string_of_uint;
    destruct (Pos.to_uint p) eqn:Hd; try congruence;
    rewrite Hs, ?Hplus, ?Hminus, <- Hs, Hval, Hof; reflexivity.
Qed.

Example parseInt10_examples :
  parseInt10 "  +42abc" = Some 42 /\ parseInt10 "-7.5" = Some (-7) /\
  parseInt10 "0x10" = Some 0 /\ parseInt10 "- 5" = None /\
  parseInt10 "" = None /\ parseInt10 "5,7" = Some 5.
Proof. repeat split; reflexivity. Qed.

(** X21: for every integer n, a limit parameter that is the decimal
    numeral of n gives the effective limit 100 when n is 0 and n clamped
    to [1, 500] otherwise: parsing undoes printing. *)
Theorem decimal_limit_is_clamped (n : Z) :
  logLimit (JStr (Str.of_Z n)) =
    Ok (if n =? 0 then 100 else clamp 1 MAX_HISTORY n).
Proof.
  unfold logLimit. cbn [js_String bind]. rewrite parseInt10_of_Z.
  unfold clamp. destruct (n =? 0); reflexivity.
Qed.

(** ** The exceptions of the normaliser *)

Lemma js_String_error : forall (v : jsval) (e : error),
  js_String v = Throw e -> e = TypeError.
Proof.
  fix IH 1. intros v e.
  destruct v as [| | [|] | n | s | l | o]; cbn [js_String]; try discriminate.
  - induction l as [| x l IHl]; [discriminate |].
    destruct (nullish x) eqn:Hn; cbn [bind].
    + destruct l as [| y l]; [discriminate |].
      destruct ((fix join (l0 : list jsval) : result string :=
                   match l0 with
                   | [] => Ok ""
                   | x0 :: rest =>
                       a <- (if nullish x0 then Ok "" else js_String x0) ;;
                       match rest with
                       | [] => Ok a
                       | _ :: _ => b <- join rest ;; Ok (a ++ "," ++ b)
                       end
                   end) (y :: l)) as [b | e1] eqn:Hj; cbn [bind];
        [discriminate |].
      intros He. injection He as <-. apply IHl. reflexivity.
    + destruct (js_String x) as [a | e1] eqn:Hx; cbn [bind].
      * destruct l as [| y l]; [discriminate |].
        destruct ((fix join (l0 : list jsval) : result string :=
                     match l0 with
                     | [] => Ok ""
                     | x0 :: rest =>
                         a0 <- (if nullish x0 then Ok "" else js_String x0) ;;
                         match rest with
                         | [] => Ok a0
                         | _ :: _ => b <- join rest ;; Ok (a0 ++ "," ++ b)
                         end
                     end) (y :: l)) as [b | e2] eqn:Hj; cbn [bind];
          [discriminate |].
        intros He. injection He as <-. apply IHl. reflexivity.
      * intros He. injection He as <-. exact (IH x e1 Hx).
  - destruct (own o "toString"); [| discriminate].
    intros He. injection He as <-. reflexivity.
Qed.

(** X22: the normaliser of the ingestion endpoint raises nothing but the
    TypeError of String(), and only for the phone input, extension,
    source or status: note, name and person_id never raise, and a body
    whose four fields convert is always normalised or refused with 400. *)
Theorem normalize_raises_only_on_conversion (b : jsval) (e : error) :
  normalize b = Throw e ->
  e = TypeError /\
  (js_String (phoneInput b) = Throw TypeError \/
   js_String (prop b "extension") = Throw TypeError \/
   js_String (prop b "source") = Throw TypeError \/
   js_String (prop b "status") = Throw TypeError).
Proof.
  unfold normalize, sanitizePhone, trimmed_or_null, normalizeStatus.
  rewrite phoneInput_not_nullish.
  destruct (js_String (phoneInput b)) as [s | e1] eqn:Hphone; cbn [bind].
  2:{ intros He. injection He as <-.
      pose proof (js_String_error _ _ Hphone) as ->. auto. }
  set (p := if Str.is_empty (Str.trim s) then Ok no_phone else _).
  assert (Hp : exists q, p = Ok q).
  { subst p. destruct (Str.is_empty (Str.trim s)); [eexists; reflexivity |].
    destruct (Str.is_empty (Str.filter Str.is_digit (Str.trim s)));
      eexists; reflexivity. }
  destruct Hp as [q ->]. cbn [bind].
  destruct (Str.is_empty (display q) && Str.is_empty (digits q)); [discriminate |].
  destruct (nullish (prop b "extension")); cbn [bind].
  - destruct (nullish (prop b "source")); cbn [bind].
    + destruct (negb (truthy (prop b "status"))); cbn [bind]; [discriminate |].
      destruct (js_String (prop b "status")) as [t | e1] eqn:Hst; cbn [bind].
      * destruct (STATUS_LABELS_has _); [discriminate |].
        destruct (_ || _); discriminate.
      * intros He. injection He as <-.
        pose proof (js_String_error _ _ Hst) as ->. auto.
    + destruct (js_String (prop b "source")) as [t | e1] eqn:Hsrc; cbn [bind].
      * destruct (negb (truthy (prop b "status"))); cbn [bind]; [discriminate |].
        destruct (js_String (prop b "status")) as [u | e1] eqn:Hst; cbn [bind].
        -- destruct (STATUS_LABELS_has _); [discriminate |].
           destruct (_ || _); discriminate.
        -- intros He. injection He as <-.
           pose proof (js_String_error _ _ Hst) as ->. auto.
      * intros He. injection He as <-.
        pose proof (js_String_error _ _ Hsrc) as ->. auto.
  - destruct (js_String (prop b "extension")) as [x | e1] eqn:Hext; cbn [bind].
    + destruct (nullish (prop b "source")); cbn [bind].
      * destruct (negb (truthy (prop b "status"))); cbn [bind]; [discriminate |].
        destruct (js_String (prop b "status")) as [t | e1] eqn:Hst; cbn [bind].
        -- destruct (STATUS_LABELS_has _); [discriminate |].
           destruct (_ || _); discriminate.
        -- intros He. injection He as <-.
           pose proof (js_String_error _ _ Hst) as ->. auto.
      * destruct (js_String (prop b "source")) as [t | e1] eqn:Hsrc; cbn [bind].
        -- destruct (negb (truthy (prop b "status"))); cbn [bind]; [discriminate |].
           destruct (js_String (prop b "status")) as [u | e1] eqn:Hst; cbn [bind].
           ++ destruct (STATUS_LABELS_has _); [discriminate |].
              destruct (_ || _); discriminate.
           ++ intros He. injection He as <-.
              pose proof (js_String_error _ _ Hst) as ->. auto.
        -- intros He. injection He as <-.
           pose proof (js_String_error _ _ Hsrc) as ->. auto.
    + intros He. injection He as <-.
      pose proof (js_String_error _ _ Hext) as ->. auto.
Qed.

Lemma normalize_raises_only_on_conversion_witness :
  let b := JObj [("phone", JStr "0712"); ("status", JObj [("toString", JNull)])] in
  TypeError = TypeError /\
  (js_String (phoneInput b) = Throw TypeError \/
   js_String (prop b "extension") = Throw TypeError \/
   js_String (prop b "source") = Throw TypeError \/
   js_String (prop b "status") = Throw TypeError).
Proof.
  intros b. apply (normalize_raises_only_on_conversion b TypeError). reflexivity.
Defined.

(** ** The log query *)

Section LogQuery.

Context {DB : Type} `{Store DB}.

Implicit Types (st : state) (rt : runtime) (db : DB).


End LogQuery.

